(** * base_gui_3: the controller and the file handler

    A shallow embedding of [controller.py] and [models/filehandler.py].
    Python text is a [string] whose characters stand for the code points
    below 256; exceptions are values of [exn]; methods that touch the
    application object, the message boxes, the file system or the sound
    device are functions in a state-and-exception monad; the collaborating
    models that the controller imports ([audiomodel], [calmodel],
    [csvmodel], [stimulusmodel]) are modelled at their interface.  What
    [print] writes to the console is left out. *)

From Stdlib Require Import ZArith List Ascii String Lia Bool.
From Stdlib Require Import PrimFloat SpecFloat FloatOps FloatAxioms.
From stdpp Require Import base option list strings gmap.

Local Open Scope Z_scope.
Set Warnings "-inexact-float".

(** ** Python built-ins used by the two files *)
Module Py.

(** Exception classes that the two files raise, catch or let through. *)
Inductive exn : Type :=
| Exception            (* raise Exception("Invalid file format!") *)
| AttributeError
| KeyError
| IndexError
| TypeError
| OverflowError
| ValueError
| TclError             (* tkinter, after the root window is destroyed *)
| OSError
| FileNotFoundError    (* subclass of OSError *)
| PermissionError      (* subclass of OSError *)
| IsADirectoryError    (* subclass of OSError *)
| NotADirectoryError   (* subclass of OSError *)
| InvalidAudioType     (* audio_exceptions.* *)
| MissingSamplingRate
| InvalidAudioDevice
| InvalidRouting
| Clipping.

#[global] Instance exn_eq_dec : EqDecision exn.
Proof. solve_decision. Defined.

(** [isinstance(e, OSError)], as an [except OSError] clause tests it. *)
Definition is_OSError (e : exn) : bool :=
  match e with
  | OSError | FileNotFoundError | PermissionError | IsADirectoryError
  | NotADirectoryError => true
  | _ => false
  end.

(** The value of an expression, or the exception it raised. *)
Inductive result (A : Type) : Type :=
| Ok (a : A)
| Raise (e : exn).
Arguments Ok {A} a.
Arguments Raise {A} e.

(** [x is not None] *)
Definition defined {A} (x : option A) : bool :=
  match x with
  | Some _ => true
  | None => false
  end.

Definition chars (s : string) : list ascii := list_ascii_of_string s.
Definition text (l : list ascii) : string := string_of_list_ascii l.

Definition code (c : ascii) : Z := Z.of_nat (nat_of_ascii c).

(** [str.isspace] on one character: the code points below 256 with the
    White_Space property or a bidirectional class of B, S or WS. *)
Definition isspace (c : ascii) : bool :=
  let n := code c in
  ((9 <=? n) && (n <=? 13)) || ((28 <=? n) && (n <=? 32))
  || (n =? 133) || (n =? 160).

(** [str.isdecimal] on one character: below 256 only 0..9 are decimal
    digits. *)
Definition isdigit (c : ascii) : bool :=
  let n := code c in (48 <=? n) && (n <=? 57).

Definition digit_value (c : ascii) : Z := code c - 48.

(** [s.endswith(suffix)]: the last [len(suffix)] characters of [s] are
    compared with [suffix]; a suffix longer than [s] never matches. *)
Definition endswith (s suffix : string) : bool :=
  let l := chars s in
  let suf := chars suffix in
  let n := length l in
  let m := length suf in
  if (m <=? n)%nat then bool_decide (drop (n - m) l = suf) else false.

(** [s.split()] with no separator: runs of whitespace separate the
    tokens, and no empty token is produced.  [cur] is the token being
    read. *)
Definition token (cur : list ascii) : list (list ascii) :=
  match cur with
  | [] => []
  | _ => [cur]
  end.

Fixpoint split_from (cur : list ascii) (l : list ascii)
  : list (list ascii) :=
  match l with
  | [] => token cur
  | c :: l' =>
      if isspace c then token cur ++ split_from [] l'
      else split_from (cur ++ [c]) l'
  end.

Definition split (s : string) : list string :=
  map text (split_from [] (chars s)).

(** The whitespace that [int] drops around its argument: the ASCII
    whitespace of C, and the Unicode spaces from 127 on, which [int] turns
    into a blank first.  The separators 28 to 31 are not among it. *)
Definition int_space (c : ascii) : bool :=
  let n := code c in
  ((9 <=? n) && (n <=? 13)) || (n =? 32) || (n =? 133) || (n =? 160).

Fixpoint lstrip (l : list ascii) : list ascii :=
  match l with
  | [] => []
  | c :: l' => if int_space c then lstrip l' else l
  end.

Definition strip (l : list ascii) : list ascii :=
  rev (lstrip (rev (lstrip l))).

(** The digits of an integer literal in base 10: at least one digit, and
    single underscores only between two digits.  [acc] is the value read
    so far, [after_digit] tells whether the previous character was a
    digit. *)
Fixpoint int_digits (acc : Z) (after_digit : bool) (l : list ascii)
  : option Z :=
  match l with
  | [] => if after_digit then Some acc else None
  | c :: l' =>
      if isdigit c then int_digits (10 * acc + digit_value c) true l'
      else if Ascii.eqb c "_" && after_digit then int_digits acc false l'
      else None
  end.

(** The limit on the number of digits of a decimal literal that [int]
    converts, [sys.int_info.default_max_str_digits]; underscores do not
    count. *)
Definition max_str_digits : nat := 4300.

Fixpoint count_digits (l : list ascii) : nat :=
  match l with
  | [] => 0
  | c :: l' => if isdigit c then S (count_digits l') else count_digits l'
  end.

Definition over_limit (l : list ascii) : bool :=
  (max_str_digits <? count_digits l)%nat.

(** [int(x)] for a [str] argument: surrounding whitespace is dropped, one
    sign is allowed, a literal with more digits than the limit is
    refused; whatever is refused raises [ValueError]. *)
Definition int (x : string) : result Z :=
  let digits l := match int_digits 0 false l with
                  | Some z => if over_limit l then Raise ValueError else Ok z
                  | None => Raise ValueError
                  end in
  match strip (chars x) with
  | "+"%char :: l => digits l
  | "-"%char :: l => match digits l with
                     | Ok z => Ok (- z)
                     | Raise e => Raise e
                     end
  | l => digits l
  end.

(** A list comprehension [[f(x) for x in xs]]: the first exception ends
    it. *)
Fixpoint comprehension {A B} (f : A -> result B) (xs : list A)
  : result (list B) :=
  match xs with
  | [] => Ok []
  | x :: xs' =>
      match f x with
      | Raise e => Raise e
      | Ok y => match comprehension f xs' with
                | Raise e => Raise e
                | Ok ys => Ok (y :: ys)
                end
      end
  end.

End Py.
Export Py.

(** ** A state-and-exception monad

    A method runs in a state [S] and either returns a value or raises; the
    state reached is kept in both cases, because what a method did before it
    raised stays done. *)
Module Eff.

Definition M (S A : Type) : Type := S -> result A * S.

Definition ret {S A} (a : A) : M S A := fun s => (Ok a, s).
Definition raise {S A} (e : exn) : M S A := fun s => (Raise e, s).
Definition bind {S A B} (m : M S A) (k : A -> M S B) : M S B :=
  fun s => match m s with
           | (Ok a, s') => k a s'
           | (Raise e, s') => (Raise e, s')
           end.
Definition get {S} : M S S := fun s => (Ok s, s).
Definition modify {S} (f : S -> S) : M S unit := fun s => (Ok tt, f s).

(** [try: m except <handles>: handler]; an exception that no clause
    matches goes on to the caller. *)
Definition try_except {S A} (m : M S A) (handles : exn -> bool)
    (handler : exn -> M S A) : M S A :=
  fun s => match m s with
           | (Ok a, s') => (Ok a, s')
           | (Raise e, s') =>
               if handles e then handler e s' else (Raise e, s')
           end.

(** Lifting the value of a pure expression that may raise. *)
Definition lift {S A} (r : result A) : M S A := fun s => (r, s).

End Eff.
Export Eff.

Notation "'let!' x ':=' m 'in' k" := (bind m (fun x => k))
  (at level 10, x name, m at level 100, k at level 200).
Notation "'run!' m 'in' k" := (bind m (fun _ => k))
  (at level 10, m at level 100, k at level 200).

(** ** models/filehandler.py *)
Module filehandler.

(** A dictionary keeps its keys in insertion order; [data.keys()] and the
    cells that [DictWriter.writerow] emits follow that order. *)
Definition dict : Type := list (string * string).
Definition keys (d : dict) : list string := map fst d.
Definition values (d : dict) : list string := map snd d.

(** One record written by the [csv] writer. *)
Definition csv_row : Type := list string.

(** A path, as text. *)
Abbreviation path := string.

(** [os.path.join] and [pathlib.Path] depend on the platform; they are
    taken as they come. *)
Class PathLib : Type := {
  join : string -> string -> path;     (* Path(os.path.join(a, b)) *)
  parent : path -> path                (* Path(p).parent *)
}.

Record file : Type := {
  writable : bool;              (* os.access(file, os.W_OK) *)
  rows : list csv_row           (* the records in the file, in order *)
}.

(** The part of the file system that the handler looks at.  What
    [os.makedirs] does is up to the file system as it stands: it raises,
    or it brings a directory and the missing ones above it into
    existence. *)
Record filesystem : Type := {
  dirs : gmap path bool;        (* existing directories, and W_OK *)
  files : gmap path file;       (* existing files *)
  makedirs_outcome :
    gmap path bool -> gmap path file -> path -> result (gmap path bool)
}.

Definition FS (A : Type) : Type := M filesystem A.

(** Something is at [p], a directory or a file. *)
Definition exists_at (fs : filesystem) (p : path) : bool :=
  defined (dirs fs !! p) || defined (files fs !! p).

(** [os.access(p, os.F_OK)] and [Path(p).exists()] *)
Definition access_F_OK (p : path) : FS bool :=
  let! fs := get in ret (exists_at fs p).

(** [os.access(p, os.W_OK)] *)
Definition access_W_OK (p : path) : FS bool :=
  let! fs := get in
  ret match dirs fs !! p with
      | Some w => w
      | None => default false (writable <$> files fs !! p)
      end.

Definition makedirs (d : path) : FS unit :=
  let! fs := get in
  match makedirs_outcome fs (dirs fs) (files fs) d with
  | Raise e => raise e
  | Ok created =>
      modify (fun fs => {| dirs := created ∪ dirs fs;
                           files := files fs;
                           makedirs_outcome := makedirs_outcome fs |})
  end.

(** [open(p, 'a')]: a directory cannot be opened; an existing file must be
    writable; a missing file is created empty in its parent, which must
    be a writable directory. *)
Definition open_append `{PathLib} (p : path) : FS unit :=
  let! fs := get in
  match dirs fs !! p with
  | Some _ => raise IsADirectoryError
  | None =>
      match files fs !! p with
      | Some f => if writable f then ret tt else raise PermissionError
      | None =>
          match dirs fs !! parent p with
          | Some true =>
              modify (fun fs =>
                {| dirs := dirs fs;
                   files := <[p := {| writable := true; rows := [] |}]>
                              (files fs);
                   makedirs_outcome := makedirs_outcome fs |})
          | Some false => raise PermissionError
          | None =>
              match files fs !! parent p with
              | Some _ => raise NotADirectoryError
              | None => raise FileNotFoundError
              end
          end
      end
  end.

(** One record written through a handle opened for appending. *)
Definition write_row (p : path) (r : csv_row) : FS unit :=
  modify (fun fs =>
    {| dirs := dirs fs;
       files := alter (fun f => {| writable := writable f;
                                   rows := rows f ++ [r] |}) p (files fs);
       makedirs_outcome := makedirs_outcome fs |}).

(** The handler object: [file] is unset until [_create_file_path]. *)
Record FileHandler : Type := {
  filename : string;
  data_directory : string;
  file_ : option path
}.

(** What a class contributes: its [ext] attribute, if it has one, and its
    [_write] method. *)
Record klass : Type := {
  ext : option string;
  _write : FileHandler -> dict -> FS unit
}.

Definition __init__ (cls : klass) (filename : string)
    (kwargs : gmap string string) : result FileHandler :=
  match ext cls with
  | None => Raise AttributeError
  | Some e =>
      if negb (endswith filename e) then Raise Exception
      else Ok {| filename := filename;
                 data_directory :=
                   match kwargs !! "data_directory"%string with
                   | Some d => d
                   | None => "Data"%string
                   end;
                 file_ := None |}
  end.

Definition _check_for_data_folder (self : FileHandler) : FS unit :=
  let! data_dir_exists := access_F_OK (data_directory self) in
  if negb data_dir_exists then makedirs (data_directory self)
  else ret tt.

Definition the_file (self : FileHandler) : FS path :=
  match file_ self with
  | Some p => ret p
  | None => raise AttributeError
  end.

Section Paths.
Context `{PathLib}.

Definition _create_file_path (self : FileHandler) : FileHandler :=
  {| filename := filename self;
     data_directory := data_directory self;
     file_ := Some (join (data_directory self) (filename self)) |}.

Definition _check_write_access (self : FileHandler) : FS unit :=
  let! p := the_file self in
  let! file_exists := access_F_OK p in
  let! parent_writable := access_W_OK (parent p) in
  let! file_writable := access_W_OK p in
  if (negb file_exists && negb parent_writable)
     || (file_exists && negb file_writable)
  then raise PermissionError
  else ret tt.

Definition save (cls : klass) (self : FileHandler) (data : dict)
  : FS FileHandler :=
  run! _check_for_data_folder self in
  let self := _create_file_path self in
  run! try_except (_check_write_access self)
         (fun e => bool_decide (e = PermissionError))
         (fun e => raise e) in
  run! _write cls self data in
  ret self.

(** The base class: no [ext], and a [_write] that does nothing. *)
Definition FileHandler_class : klass :=
  {| ext := None; _write := fun _ _ => ret tt |}.

(** The message printed before the [try] reads [self.file], so an unset
    path raises there, outside the handler. *)
Definition CSVFile_write (self : FileHandler) (data : dict) : FS unit :=
  let! p := the_file self in
  try_except
    (let! exists_ := access_F_OK p in
     let newfile := negb exists_ in
     run! open_append p in
     run! (if newfile then write_row p (keys data) else ret tt) in
     write_row p (values data))
    (fun e => bool_decide (e = AttributeError))
    (fun _ => ret tt).

Definition CSVFile : klass :=
  {| ext := Some "csv"%string; _write := CSVFile_write |}.

(** Where a handler writes. *)
Definition target (self : FileHandler) : path :=
  join (data_directory self) (filename self).

(** Successive calls of [save] on one handler. *)
Fixpoint save_each (cls : klass) (self : FileHandler) (ds : list dict)
  : FS FileHandler :=
  match ds with
  | [] => ret self
  | d :: ds' => let! self' := save cls self d in save_each cls self' ds'
  end.

End Paths.

(** The records of the file at [p]; a missing file has none. *)
Definition contents (fs : filesystem) (p : path) : list csv_row :=
  default [] (rows <$> files fs !! p).

Definition present (fs : filesystem) (p : path) : bool :=
  defined (files fs !! p).

(** The header that a save writes: the keys, if the file is new. *)
Definition header_if_new (fs : filesystem) (p : path) (data : dict)
  : list csv_row :=
  if present fs p then [] else [keys data].

End filehandler.

(** ** controller.py *)
Module controller.

(** What a tk variable holds: [BooleanVar], [IntVar], [DoubleVar] or
    [StringVar].  A float is a binary64 number, as in Python. *)
Inductive value : Type :=
| VBool (b : bool)
| VInt (z : Z)
| VFloat (x : float)
| VStr (s : string).

(** *** The collaborating models, at their interface *)

Definition frame : Type := list float.       (* one amplitude per channel *)

(** Modelled from the spec: the object built by [audiomodel.Audio], whose
    source is not part of the two files.  [samples] is the loaded
    waveform, [signal] the buffer after the last gain application, which
    is the one handed to the device and to the plot. *)
Record Audio : Type := {
  samples : list frame;
  sample_rate_Hz : Z;
  channel_count : nat;
  signal : list frame
}.

(** The [audio] argument of a presentation request, with the sampling
    rate that may come with it as a keyword argument. *)
Inductive audio_source : Type :=
| FromPath (p : string)
| FromBuffer (buffer : list frame) (channels : nat)
| FromOther.

(** The conversion of a level in dB to a linear factor, [10^(dB/20)],
    needs a power function, which the floats of the kernel do not have;
    it is a parameter of the model. *)
Class GainLaw : Type := db_to_linear : float -> float.

(** What happens outside the application object. *)
Inductive event : Type :=
| ShowError (title : string)             (* messagebox.showerror *)
| ShowInfo (title : string)              (* messagebox.showinfo *)
| SessionDialog                          (* sessionview.SessionDialog *)
| AudioDialog                            (* audioview.AudioDialog *)
| MenuDisabled (entry : string)          (* file_menu.entryconfig *)
| BindKey (key : string)                 (* self.bind *)
| TrialLabel (trial total : nat)         (* trial_var.set *)
| SaveRecord (data : list (string * value))   (* csvmodel.save_record *)
| DeviceSubmit (device : Z) (routing : list Z) (buffer : list frame)
| DeviceStop
| PlotWaveform (title : string) (buffer : list frame)
| Destroy.                               (* self.destroy *)

(** The attributes of the [Application] object that the methods below
    read or assign.  An attribute that has not been assigned yet is
    [None]; reading it raises [AttributeError]. *)
Record App : Type := {
  response : Z;
  first_run_flag : bool;
  filename : option (value * value * string);
  trial_counter : option nat;
  matrix : option (list (string * float));   (* rows: audio path, level *)
  sessionpars : gmap string value;
  a : option Audio;
  destroyed : bool
}.

(** The surroundings: files, devices, the clock, and what was done to
    them so far. *)
Record World : Type := {
  audio_files : gmap string (list frame * Z * nat);  (* decoded files *)
  devices : list Z;                      (* usable output devices *)
  stimulus_matrix : option (list (string * float));  (* the matrix file *)
  csv_failure : option exn;              (* why save_record would fail *)
  datestamp : string;                    (* datetime.now().strftime *)
  persisted : gmap string value;         (* the saved session file *)
  playing : bool;                        (* the device is emitting *)
  trace : list event                     (* oldest first *)
}.

Record state : Type := { app : App; env : World }.

Definition Ctl (A : Type) : Type := M state A.

Definition upd_app (f : App -> App) : Ctl unit :=
  modify (fun st => {| app := f (app st); env := env st |}).
Definition upd_env (f : World -> World) : Ctl unit :=
  modify (fun st => {| app := app st; env := f (env st) |}).

Definition with_response (r : Z) (x : App) : App :=
  {| response := r; first_run_flag := first_run_flag x;
     filename := filename x; trial_counter := trial_counter x;
     matrix := matrix x; sessionpars := sessionpars x; a := a x;
     destroyed := destroyed x |}.
Definition with_filename (f : value * value * string) (x : App) : App :=
  {| response := response x; first_run_flag := first_run_flag x;
     filename := Some f; trial_counter := trial_counter x;
     matrix := matrix x; sessionpars := sessionpars x; a := a x;
     destroyed := destroyed x |}.
Definition with_trial_counter (n : nat) (x : App) : App :=
  {| response := response x; first_run_flag := first_run_flag x;
     filename := filename x; trial_counter := Some n;
     matrix := matrix x; sessionpars := sessionpars x; a := a x;
     destroyed := destroyed x |}.
Definition with_matrix (m : list (string * float)) (x : App) : App :=
  {| response := response x; first_run_flag := first_run_flag x;
     filename := filename x; trial_counter := trial_counter x;
     matrix := Some m; sessionpars := sessionpars x; a := a x;
     destroyed := destroyed x |}.
Definition with_sessionpars (sp : gmap string value) (x : App) : App :=
  {| response := response x; first_run_flag := first_run_flag x;
     filename := filename x; trial_counter := trial_counter x;
     matrix := matrix x; sessionpars := sp; a := a x;
     destroyed := destroyed x |}.
Definition with_a (au : Audio) (x : App) : App :=
  {| response := response x; first_run_flag := first_run_flag x;
     filename := filename x; trial_counter := trial_counter x;
     matrix := matrix x; sessionpars := sessionpars x; a := Some au;
     destroyed := destroyed x |}.
Definition with_destroyed (x : App) : App :=
  {| response := response x; first_run_flag := first_run_flag x;
     filename := filename x; trial_counter := trial_counter x;
     matrix := matrix x; sessionpars := sessionpars x; a := a x;
     destroyed := true |}.

Definition with_trace (t : list event) (w : World) : World :=
  {| audio_files := audio_files w; devices := devices w;
     stimulus_matrix := stimulus_matrix w; csv_failure := csv_failure w;
     datestamp := datestamp w; persisted := persisted w;
     playing := playing w; trace := t |}.
Definition with_persisted (sp : gmap string value) (w : World) : World :=
  {| audio_files := audio_files w; devices := devices w;
     stimulus_matrix := stimulus_matrix w; csv_failure := csv_failure w;
     datestamp := datestamp w; persisted := sp;
     playing := playing w; trace := trace w |}.
Definition with_playing (b : bool) (w : World) : World :=
  {| audio_files := audio_files w; devices := devices w;
     stimulus_matrix := stimulus_matrix w; csv_failure := csv_failure w;
     datestamp := datestamp w; persisted := persisted w;
     playing := b; trace := trace w |}.

(** An effect on the surroundings, appended to the trace. *)
Definition emit (e : event) : Ctl unit :=
  upd_env (fun w => with_trace (trace w ++ [e]) w).

(** [self.destroy()] *)
Definition destroy : Ctl unit :=
  run! emit Destroy in upd_app with_destroyed.

(** [self.sessionpars[key].get()]: a missing key raises [KeyError]; a
    variable of a destroyed application can no longer be read. *)
Definition getvar (key : string) : Ctl value :=
  let! st := get in
  match sessionpars (app st) !! key with
  | None => raise KeyError
  | Some v => if destroyed (app st) then raise TclError else ret v
  end.

(** [self.sessionpars[key].set(v)] *)
Definition setvar (key : string) (v : value) : Ctl unit :=
  let! st := get in
  match sessionpars (app st) !! key with
  | None => raise KeyError
  | Some _ =>
      if destroyed (app st) then raise TclError
      else upd_app (fun x => with_sessionpars
                               (<[key := v]> (sessionpars x)) x)
  end.

(** [float(z)] for an integer: the nearest float, ties to even;
    [OverflowError] when the integer is too large for one. *)
Definition float_of_int (z : Z) : result float :=
  let x := SF2Prim (binary_normalize prec emax z 0 false) in
  if is_infinity x then Raise OverflowError else Ok x.

(** The number held by a numeric variable, as float arithmetic takes
    it. *)
Definition as_number (v : value) : result float :=
  match v with
  | VFloat x => Ok x
  | VInt z => float_of_int z
  | VBool b => Ok (if b then 1%float else 0%float)
  | VStr _ => Raise TypeError
  end.

Definition get_number (key : string) : Ctl float :=
  let! v := getvar key in lift (as_number v).

(** A widget operation, which needs a live application. *)
Definition widget (e : event) : Ctl unit :=
  let! st := get in
  if destroyed (app st) then raise TclError else emit e.

Definition showerror (title : string) : Ctl unit := emit (ShowError title).
Definition showinfo (title : string) : Ctl unit := emit (ShowInfo title).

(** Modelled from the spec: [compute_offset] of section 4.1, the
    arithmetic of [calmodel.CalModel.calc_offset], whose source is not
    part of the two files. *)
Definition compute_offset (cal_level_dB slm_reading_dB : float) : float :=
  (cal_level_dB - slm_reading_dB)%float.

(** Modelled from the spec: [compute_adjusted_level] of section 4.2, the
    arithmetic of [calmodel.CalModel.calc_level]. *)
Definition compute_adjusted_level (desired_level_dB slm_offset_dB : float)
  : float :=
  (desired_level_dB + slm_offset_dB)%float.

(** Modelled from the spec: [calmodel.CalModel.calc_offset()], whose
    source is not part of the two files; it reads the calibration level
    and the meter reading from the session parameters and hands the
    offset back to them (the keys are those of [save_list], l.367). *)
Definition calmodel_calc_offset : Ctl unit :=
  let! c := get_number "cal_level_dB" in
  let! s := get_number "slm_reading" in
  setvar "slm_offset" (VFloat (compute_offset c s)).

(** Modelled from the spec: [calmodel.CalModel.calc_level(desired_spl)],
    whose source is not part of the two files.  It works "using
    slm_offset" (docstring of [_calc_level], l.493) and "updates
    sessionpars" (l.284, l.339), where the controller reads
    ['adjusted_level_dB'] right after the call (l.290, l.344). *)
Definition calmodel_calc_level (desired_spl : float) : Ctl unit :=
  let! o := get_number "slm_offset" in
  setvar "adjusted_level_dB"
    (VFloat (compute_adjusted_level desired_spl o)).

(** Modelled from the spec: [csvmodel.CSVModel.save_record(data)]; the
    record handed over is what the trace keeps, and the call fails as the
    surroundings say. *)
Definition csvmodel_save_record (data : list (string * value))
  : Ctl unit :=
  run! emit (SaveRecord data) in
  let! st := get in
  match csv_failure (env st) with
  | None => ret tt
  | Some e => raise e
  end.

(** Modelled from the spec: the constructor [audiomodel.Audio(audio,
    **kwargs)] of section 4.4. *)
Definition Audio_init (audio : audio_source) (sampling_rate : option Z)
  : Ctl Audio :=
  match audio with
  | FromPath p =>
      let! st := get in
      match audio_files (env st) !! p with
      | None => raise FileNotFoundError
      | Some (buffer, rate, channels) =>
          ret {| samples := buffer; sample_rate_Hz := rate;
                 channel_count := channels; signal := buffer |}
      end
  | FromBuffer buffer channels =>
      match sampling_rate with
      | None => raise MissingSamplingRate
      | Some rate =>
          ret {| samples := buffer; sample_rate_Hz := rate;
                 channel_count := channels; signal := buffer |}
      end
  | FromOther => raise InvalidAudioType
  end.

(** Modelled from the spec: [validate] of section 4.3. *)
Definition validate (routing : list Z) (channel_count : nat)
  : result unit :=
  if bool_decide (length routing = channel_count) then Ok tt
  else Raise InvalidRouting.

(** Modelled from the spec: [check_clipping] of section 4.4, true when a
    sample of the gain-applied buffer exceeds full scale. *)
Definition exceeds_full_scale (x : float) : bool :=
  (1 <? abs x)%float.
Definition check_clipping (au : Audio) : bool :=
  existsb (existsb exceeds_full_scale) (signal au).

Section Presentation.
Context `{GainLaw}.

(** Modelled from the spec: [apply_gain] of section 4.4; the loaded
    waveform is kept and the scaled one becomes the signal. *)
Definition apply_gain (level : float) (au : Audio) : Audio :=
  {| samples := samples au; sample_rate_Hz := sample_rate_Hz au;
     channel_count := channel_count au;
     signal := map (map (mul (db_to_linear level))) (samples au) |}.

(** Modelled from the spec: [play] of section 4.4.  The object is the
    one bound to [self.a], its only reference, so what [play] does to
    it is written there. *)
Definition Audio_play (au : Audio) (level : float) (device_id : value)
    (routing : list Z) : Ctl unit :=
  let au := apply_gain level au in
  run! upd_app (with_a au) in
  run! lift (validate routing (channel_count au)) in
  run! (if check_clipping au then raise Clipping else ret tt) in
  let! st := get in
  match device_id with
  | VInt d =>
      if bool_decide (d ∈ devices (env st))
      then run! emit (DeviceSubmit d routing (signal au)) in
           upd_env (with_playing true)
      else raise InvalidAudioDevice
  | _ => raise InvalidAudioDevice
  end.

(** Modelled from the spec: [stop] of section 4.4. *)
Definition Audio_stop (au : Audio) : Ctl unit :=
  let! st := get in
  if playing (env st)
  then run! emit DeviceStop in upd_env (with_playing false)
  else ret tt.

(** Modelled from the spec: [plot_waveform] of section 4.4. *)
Definition Audio_plot_waveform (au : Audio) (title : string)
  : Ctl unit :=
  emit (PlotWaveform title (signal au)).

(** [self.a], or [AttributeError] before the first assignment. *)
Definition the_a : Ctl Audio :=
  let! st := get in
  match a (app st) with
  | Some au => ret au
  | None => raise AttributeError
  end.

Definition _show_session_dialog : Ctl unit := emit SessionDialog.
Definition _show_audio_dialog : Ctl unit := emit AudioDialog.

Definition _update_trial_label : Ctl unit :=
  let! st := get in
  match trial_counter (app st), matrix (app st) with
  | Some n, Some m => widget (TrialLabel (n + 1) (length m))
  | _, _ => raise AttributeError
  end.

Definition _create_filename : Ctl unit :=
  let! st := get in
  let stamp := datestamp (env st) in
  let! subject := getvar "subject" in
  let! condition := getvar "condition" in
  upd_app (with_filename (subject, condition, stamp)).

(** Every variable is read and handed to the session model, which then
    writes its file. *)
Definition _save_sessionpars : Ctl unit :=
  let! st := get in
  if destroyed (app st)
     && negb (bool_decide (sessionpars (app st) = ∅))
  then raise TclError
  else upd_env (fun w =>
         with_persisted (sessionpars (app st) ∪ persisted w) w).

Definition _calc_offset : Ctl unit :=
  run! calmodel_calc_offset in _save_sessionpars.

Definition _calc_level (desired_spl : float) : Ctl unit :=
  run! calmodel_calc_level desired_spl in _save_sessionpars.

Definition _format_routing (routing : string) : result (list Z) :=
  let routing := split routing in
  comprehension int routing.

Definition _play (pres_level : float) : Ctl unit :=
  try_except
    (let! au := the_a in
     let! device_id := getvar "audio_device" in
     let! routing := getvar "channel_routing" in
     let! routing := match routing with
                     | VStr s => lift (_format_routing s)
                     | _ => raise AttributeError
                     end in
     Audio_play au pres_level device_id routing)
    (fun e => match e with
              | InvalidAudioDevice | InvalidRouting | Clipping => true
              | _ => false
              end)
    (fun e => match e with
              | InvalidAudioDevice =>
                  run! showerror "Invalid Device" in _show_audio_dialog
              | InvalidRouting =>
                  run! showerror "Invalid Routing" in _show_audio_dialog
              | _ =>
                  run! showerror "Clipping" in
                  let! au := the_a in
                  Audio_plot_waveform au "Clipped Waveform"
              end).

Definition _create_audio_object (audio : audio_source)
    (kwargs : option Z) : Ctl unit :=
  try_except
    (let! au := Audio_init audio kwargs in upd_app (with_a au))
    (fun e => match e with
              | FileNotFoundError | InvalidAudioType
              | MissingSamplingRate => true
              | _ => false
              end)
    (fun e => match e with
              | FileNotFoundError =>
                  run! showerror "File Not Found" in
                  _show_session_dialog
              | _ => raise e
              end).

(** [present_audio] leaves through a [return] in its handlers;
    [go_on] tells whether the statement after the [try] is reached. *)
Definition present_audio (audio : audio_source) (pres_level : float)
    (kwargs : option Z) : Ctl unit :=
  let! go_on :=
    try_except
      (run! _create_audio_object audio kwargs in ret true)
      (fun e => match e with
                | InvalidAudioType | MissingSamplingRate => true
                | _ => false
                end)
      (fun e => match e with
                | InvalidAudioType =>
                    run! showerror "Invalid Audio Type" in ret false
                | _ =>
                    run! showerror "Missing Sampling Rate" in ret false
                end) in
  if go_on : bool then _play pres_level else ret tt.

Definition stop_audio : Ctl unit :=
  try_except
    (let! au := the_a in Audio_stop au)
    (fun e => bool_decide (e = AttributeError))
    (fun _ => ret tt).

(** [self.matrix.iloc[i, _]] *)
Definition iloc (m : list (string * float)) (i : nat) : Ctl (string * float) :=
  match m !! i with
  | Some row => ret row
  | None => raise IndexError
  end.

Definition start_task : Ctl unit :=
  let! st := get in
  run! (if first_run_flag (app st) then _create_filename
        else ret tt) in
  run! upd_app (with_trial_counter 0) in
  run! widget (MenuDisabled "Start Task") in
  run! widget (BindKey "1") in
  run! widget (BindKey "2") in
  let! st := get in
  match stimulus_matrix (env st) with
  | None => showerror "File Not Found"
  | Some m =>
      run! upd_app (with_matrix m) in
      run! _update_trial_label in
      let! row := iloc m 0 in
      run! _calc_level row.2 in
      let! level := get_number "adjusted_level_dB" in
      present_audio (FromPath row.1) level None
  end.

Definition _on_yes : Ctl unit := upd_app (with_response 1).
Definition _on_no : Ctl unit := upd_app (with_response 0).

Definition save_list : list string :=
  ["subject"; "condition"; "randomize"; "repetitions";
   "slm_reading"; "cal_level_dB"; "slm_offset"; "desired_level_dB";
   "adjusted_level_dB"]%string.

(** [dict((k, converted[k]) for k in save_list)]; [None] stands for
    the [KeyError] of a missing key. *)
Definition select (converted : gmap string value) (ks : list string)
  : option (list (string * value)) :=
  mapM (fun k => v ← converted !! k; Some (k, v)) ks.

Definition _save_trial_data : Ctl unit :=
  let! st := get in
  if destroyed (app st)
     && negb (bool_decide (sessionpars (app st) = ∅))
  then raise TclError
  else
    let converted := sessionpars (app st) in
    match select converted save_list with
    | None =>
        run! showerror "Undefined Variable" in destroy
    | Some data =>
        try_except (csvmodel_save_record data) is_OSError
          (fun e => match e with
                    | PermissionError => showerror "Access Denied"
                    | _ => showerror "File Not Found"
                    end)
    end.

Definition _on_submit : Ctl unit :=
  let! st := get in
  match trial_counter (app st) with
  | None => raise AttributeError
  | Some n =>
      run! upd_app (with_trial_counter (n + 1)) in
      run! (if response (app st) =? 0 then ret tt
            else if response (app st) =? 1 then ret tt
            else showerror "Invalid Response") in
      run! _save_trial_data in
      let! st := get in
      match matrix (app st) with
      | None => raise AttributeError
      | Some m =>
          if (n + 1 <? length m)%nat then
            run! _update_trial_label in
            let! row := iloc m (n + 1) in
            run! _calc_level row.2 in
            let! level := get_number "adjusted_level_dB" in
            present_audio (FromPath row.1) level None
          else
            run! showinfo "Task Complete" in destroy
      end
  end.

(** What the clipping handler of [_play] leaves behind: the audio
    object with the gain applied, and two more entries in the trace. *)
Definition after_clipping (level : float) (au : Audio) (st : state) : state :=
  {| app := with_a (apply_gain level au) (app st);
     env := with_trace
              (trace (env st)
               ++ [ShowError "Clipping";
                   PlotWaveform "Clipped Waveform"
                     (map (map (mul (db_to_linear level)))
                        (samples au))])
              (env st) |}.

(** The state after [_calc_level]: the adjusted level is in the session
    parameters and in the session file. *)
Definition adjusted (level : float) (st : state) : state :=
  let sp := <["adjusted_level_dB"%string := VFloat level]>
              (sessionpars (app st)) in
  {| app := with_sessionpars sp (app st);
     env := with_persisted (sp ∪ persisted (env st)) (env st) |}.

End Presentation.

End controller.

(** ** The routing specification format

    The words of the specification, as definitions of their own, to be
    compared with what [_format_routing] computes. *)
Module RoutingFormat.

Definition blank (l : list ascii) : Prop :=
  Forall (fun c => isspace c = true) l.
Definition solid (l : list ascii) : Prop :=
  l <> [] /\ Forall (fun c => isspace c = false) l.

(** [separated l toks]: [l] is the tokens [toks], in order, with
    whitespace before, between and after them. *)
Inductive separated : list ascii -> list (list ascii) -> Prop :=
| separated_nil ws :
    blank ws -> separated ws []
| separated_cons ws tok rest toks :
    blank ws -> solid tok ->
    (forall c, head rest = Some c -> isspace c = true) ->
    separated rest toks ->
    separated (ws ++ tok ++ rest) (tok :: toks).

Definition digits (l : list ascii) : Prop :=
  l <> [] /\ Forall (fun c => isdigit c = true) l.

(** The number that a row of decimal digits denotes, most significant
    digit first. *)
Fixpoint decimal_value (l : list ascii) : Z :=
  match l with
  | [] => 0
  | c :: l' => digit_value c * 10 ^ Z.of_nat (length l') + decimal_value l'
  end.

(** A token with no more digits than [int] converts. *)
Definition within_limit (tok : list ascii) : Prop :=
  (count_digits tok <= max_str_digits)%nat.

(** A decimal integer token and the integer it denotes. *)
Inductive integer_token : list ascii -> Z -> Prop :=
| token_plain ds :
    digits ds -> integer_token ds (decimal_value ds)
| token_plus ds :
    digits ds -> integer_token ("+"%char :: ds) (decimal_value ds)
| token_minus ds :
    digits ds -> integer_token ("-"%char :: ds) (- decimal_value ds).

(** A decimal integer token of 4301 digits. *)
Definition long_token : list ascii := replicate 4301 "1"%char.

End RoutingFormat.

(** ** A session, for the examples *)
Module Session.
Import controller.

(** A gain law for the examples: the factor is 1 up to 0 dB and 2
    above. *)
Definition step_gain : GainLaw :=
  fun dB => if (dB <=? 0)%float then 1%float else 2%float.

Definition pars : gmap string value :=
  list_to_map
    [("subject", VStr "s1"); ("condition", VStr "quiet");
     ("randomize", VInt 0); ("repetitions", VInt 1);
     ("slm_reading", VFloat 68); ("cal_level_dB", VFloat (-17));
     ("slm_offset", VFloat (-85)); ("desired_level_dB", VFloat 65);
     ("adjusted_level_dB", VFloat (-20));
     ("audio_device", VInt 1); ("channel_routing", VStr "1")]%string.

(** A mono file with one full-scale sample. *)
Definition tone : list frame := [[1%float]; [(-0.5)%float]].

Definition studio : World :=
  {| audio_files := {[ "tone.wav"%string := (tone, 48000, 1%nat) ]};
     devices := [1];
     stimulus_matrix :=
       Some [("tone.wav", 65%float); ("missing.wav", 60%float)]%string;
     csv_failure := None;
     datestamp := "2024_Mar_07_1200";
     persisted := ∅;
     playing := false;
     trace := [] |}.

Definition fresh : App :=
  {| response := 999; first_run_flag := true; filename := None;
     trial_counter := None; matrix := None; sessionpars := pars;
     a := None; destroyed := false |}.

Definition at_launch : state := {| app := fresh; env := studio |}.

(** The state once the first trial has been presented. *)
Definition after_first_trial : state :=
  (start_task (H := step_gain) at_launch).2.

(** The first trial answered with yes, or with no. *)
Definition answered_yes : state :=
  (_on_yes after_first_trial).2.
Definition answered_no : state :=
  (_on_no after_first_trial).2.

(** The audio object of the first trial, and a state that holds it. *)
Definition loaded_tone : Audio :=
  {| samples := tone; sample_rate_Hz := 48000; channel_count := 1;
     signal := tone |}.
Definition with_tone : state :=
  {| app := with_a loaded_tone fresh; env := studio |}.
Definition with_routing (routing : string) : state :=
  {| app := with_sessionpars
              (<["channel_routing"%string := VStr routing]> pars)
              (with_a loaded_tone fresh);
     env := studio |}.

(** The state once the second trial has been submitted for. *)
Definition after_second_trial : state :=
  (_on_submit (H := step_gain) answered_yes).2.

(** The surroundings with another matrix file, or none. *)
Definition studio_with_matrix (m : option (list (string * float))) : World :=
  {| audio_files := audio_files studio; devices := devices studio;
     stimulus_matrix := m; csv_failure := csv_failure studio;
     datestamp := datestamp studio; persisted := persisted studio;
     playing := playing studio; trace := trace studio |}.

(** The first trial answered, on a disk that refuses the record. *)
Definition refused (e : exn) : state :=
  {| app := app answered_yes;
     env := {| audio_files := audio_files studio; devices := devices studio;
               stimulus_matrix := stimulus_matrix studio;
               csv_failure := Some e;
               datestamp := datestamp studio;
               persisted := persisted (env answered_yes);
               playing := playing (env answered_yes);
               trace := trace (env answered_yes) |} |}.

(** The first trial answered, with a session parameter gone. *)
Definition without (key : string) : state :=
  {| app := with_sessionpars (delete key (sessionpars (app answered_yes)))
              (app answered_yes);
     env := env answered_yes |}.

(** A handler, a disk and a record for the file handler. *)
Definition csv_handler : filehandler.FileHandler :=
  {| filehandler.filename := "s1_quiet.csv";
     filehandler.data_directory := "Data";
     filehandler.file_ := None |}.

(** POSIX paths for the examples, for names that [Path] leaves as they
    are (no doubled separator, no "." component): [os.path.join] puts a
    "/" between the two names unless the first is empty or ends with one,
    and gives the second alone when it starts with "/"; the parent is
    what comes before the last "/", or "." without one. *)
Fixpoint before_last_slash (reversed : list ascii) : option (list ascii) :=
  match reversed with
  | [] => None
  | c :: l => if Ascii.eqb c "/" then Some (rev l) else before_last_slash l
  end.

Definition posix_join (a b : string) : string :=
  if bool_decide (take 1 (chars b) = ["/"%char]) then b
  else if bool_decide (a = ""%string) || endswith a "/" then (a +:+ b)%string
  else (a +:+ "/" +:+ b)%string.

Definition posix_parent (p : string) : string :=
  match before_last_slash (rev (chars p)) with
  | None => "."
  | Some [] => "/"
  | Some l => text l
  end.

#[export] Instance posix_paths : filehandler.PathLib :=
  {| filehandler.join := posix_join; filehandler.parent := posix_parent |}.

Definition empty_disk : filehandler.filesystem :=
  {| filehandler.dirs := {[ "Data"%string := true ]};
     filehandler.files := ∅;
     filehandler.makedirs_outcome := fun _ _ _ => Raise PermissionError |}.

Definition read_only_disk : filehandler.filesystem :=
  {| filehandler.dirs := {[ "Data"%string := true ]};
     filehandler.files :=
       {[ "Data/s1_quiet.csv"%string :=
            {| filehandler.writable := false;
               filehandler.rows := [["subject"; "response"]%string] |} ]};
     filehandler.makedirs_outcome := fun _ _ _ => Raise PermissionError |}.

Definition trial_row (response : string) : filehandler.dict :=
  [("subject", "s1"); ("response", response)]%string.

End Session.


(** ** What a method leaves as it was *)
Module Frames.
Import controller.

(** [keeps R m]: whatever the state and the outcome, the state that [m]
    reaches is related by [R] to the state it started from. *)
Definition keeps (R : state -> state -> Prop) {A} (m : Ctl A) : Prop :=
  forall st, R st (m st).2.

(** An attribute of the application object has the value it had. *)
Definition unchanged {B} (attribute : App -> B) (st st' : state) : Prop :=
  attribute (app st') = attribute (app st).

(** The trace has only grown. *)
Definition grown (st st' : state) : Prop :=
  exists events, trace (env st') = trace (env st) ++ events.

(** The title of the message for an exception. *)
Definition title_of (e : exn) : string :=
  match e with
  | InvalidAudioType => "Invalid Audio Type"
  | MissingSamplingRate => "Missing Sampling Rate"
  | InvalidAudioDevice => "Invalid Device"
  | InvalidRouting => "Invalid Routing"
  | _ => ""
  end.

(** What [_on_submit] reports about the response before it saves. *)
Definition response_events (response : Z) : list event :=
  if response =? 0 then []
  else if response =? 1 then []
  else [ShowError "Invalid Response"].

(** What [_save_trial_data] reports about a save that failed. *)
Definition failure_events (failure : option exn) : list event :=
  match failure with
  | Some PermissionError => [ShowError "Access Denied"]
  | Some e => if is_OSError e then [ShowError "File Not Found"] else []
  | None => []
  end.

End Frames.

(** * Properties *)

Import filehandler controller RoutingFormat Session Frames.

(** ** Text *)
Section Text.

Lemma chars_text (l : list ascii) : chars (text l) = l.
Proof. apply list_ascii_of_string_of_list_ascii. Qed.

Lemma text_chars (s : string) : text (chars s) = s.
Proof. apply string_of_list_ascii_of_string. Qed.

Lemma chars_app (s t : string) : chars (s +:+ t) = chars s ++ chars t.
Proof.
  induction s as [|c s IH]; simpl; [reflexivity|].
  unfold chars in *. simpl. now rewrite IH.
Qed.

Lemma text_app (k l : list ascii) : text (k ++ l) = text k +:+ text l.
Proof.
  rewrite <- (text_chars (text k +:+ text l)), chars_app.
  now rewrite !chars_text.
Qed.

(** [endswith] decides whether the text has the given ending. *)
Lemma endswith_spec (s suffix : string) :
  endswith s suffix = true <-> exists prefix, s = prefix +:+ suffix.
Proof.
  unfold endswith. split.
  - destruct (Nat.leb_spec (length (chars suffix)) (length (chars s)))
      as [Hle|]; [|discriminate].
    intros Hd. apply bool_decide_eq_true in Hd.
    set (n := (length (chars s) - length (chars suffix))%nat) in *.
    exists (text (take n (chars s))).
    rewrite <- (text_chars suffix) at 1.
    rewrite <- Hd, <- text_app, take_drop.
    symmetry. apply text_chars.
  - intros [prefix ->]. rewrite chars_app, length_app.
    destruct (Nat.leb_spec (length (chars suffix))
                (length (chars prefix) + length (chars suffix)))
      as [_|Hlt]; [|lia].
    apply bool_decide_eq_true.
    replace (length (chars prefix) + length (chars suffix)
             - length (chars suffix))%nat
      with (length (chars prefix)) by lia.
    now rewrite drop_app_length.
Qed.

End Text.

(** ** Splitting and reading integers *)
Section Parsing.

Lemma split_from_blank (ws l : list ascii) :
  blank ws -> split_from [] (ws ++ l) = split_from [] l.
Proof.
  induction 1 as [|c ws Hc _ IH]; simpl; [reflexivity|].
  now rewrite Hc.
Qed.

Lemma split_from_solid (cur tok l : list ascii) :
  Forall (fun c => isspace c = false) tok ->
  split_from cur (tok ++ l) = split_from (cur ++ tok) l.
Proof.
  intros Htok. revert cur.
  induction Htok as [|c tok Hc _ IH]; intros cur; simpl.
  - now rewrite app_nil_r.
  - rewrite Hc, IH. now rewrite <- app_assoc.
Qed.

Lemma separated_empty (toks : list (list ascii)) :
  separated [] toks -> toks = [].
Proof.
  intros Hsep. remember [] as l eqn:Hl.
  destruct Hsep as [|ws tok rest toks' _ Hsolid _ _]; [reflexivity|].
  destruct Hsolid as [Hne _].
  destruct ws, tok; simpl in Hl; congruence.
Qed.

(** [split] finds exactly the tokens of a whitespace-separated text. *)
Lemma split_from_separated (l : list ascii) (toks : list (list ascii)) :
  separated l toks -> split_from [] l = toks.
Proof.
  intros Hl.
  induction Hl as [ws Hws|ws tok rest toks Hws Hsolid Hhead Hsep IH];
    [|destruct Hsolid as [Hne Htok]].
  - rewrite <- (app_nil_r ws). now rewrite split_from_blank.
  - rewrite split_from_blank, split_from_solid by assumption. simpl.
    destruct rest as [|c rest'].
    + apply separated_empty in Hsep. subst toks. simpl.
      destruct tok; [congruence|reflexivity].
    + simpl in *. rewrite (Hhead c eq_refl) in *.
      destruct tok; [congruence|]. simpl. now rewrite IH.
Qed.

Lemma isdigit_not_space (c : ascii) : isdigit c = true -> isspace c = false.
Proof.
  unfold isdigit, isspace. intros Hd.
  apply andb_true_iff in Hd as [H1 H2].
  apply Z.leb_le in H1, H2.
  repeat match goal with
         | |- context [(?x <=? ?y)] => destruct (Z.leb_spec x y)
         | |- context [(?x =? ?y)] => destruct (Z.eqb_spec x y)
         end; simpl; try reflexivity; lia.
Qed.

Lemma int_digits_value (ds : list ascii) :
  Forall (fun c => isdigit c = true) ds ->
  forall acc b, ds <> [] \/ b = true ->
  int_digits acc b ds
  = Some (acc * 10 ^ Z.of_nat (length ds) + decimal_value ds).
Proof.
  induction 1 as [|c ds Hc Hds IH]; intros acc b Hb; simpl int_digits.
  - destruct Hb as [Hb| ->]; [congruence|]. simpl. f_equal. lia.
  - rewrite Hc, IH by (right; reflexivity).
    f_equal. cbn [length decimal_value].
    rewrite Nat2Z.inj_succ, Z.pow_succ_r by lia. lia.
Qed.

Lemma int_space_isspace (c : ascii) :
  isspace c = false -> int_space c = false.
Proof.
  unfold isspace, int_space.
  repeat match goal with
         | |- context [(?x <=? ?y)] => destruct (Z.leb_spec x y)
         | |- context [(?x =? ?y)] => destruct (Z.eqb_spec x y)
         end; simpl; try reflexivity; try discriminate; lia.
Qed.

Lemma isdigit_not_int_space (c : ascii) :
  isdigit c = true -> int_space c = false.
Proof. intros Hd. now apply int_space_isspace, isdigit_not_space. Qed.

Lemma lstrip_head (c : ascii) (l : list ascii) :
  int_space c = false -> lstrip (c :: l) = c :: l.
Proof. intros Hc. simpl. now rewrite Hc. Qed.

Lemma strip_solid_ends (c d : ascii) (l : list ascii) :
  int_space c = false -> int_space d = false ->
  strip (c :: l ++ [d]) = c :: l ++ [d].
Proof.
  intros Hc Hd. unfold strip. rewrite lstrip_head by assumption.
  assert (Hrev : rev (c :: l ++ [d]) = d :: rev (c :: l)).
  { change (c :: l ++ [d]) with ((c :: l) ++ [d]).
    now rewrite rev_app_distr. }
  rewrite Hrev, lstrip_head, <- Hrev by assumption.
  apply rev_involutive.
Qed.

Lemma strip_digits (ds : list ascii) : digits ds -> strip ds = ds.
Proof.
  intros [Hne Hds]. destruct ds as [|c ds]; [congruence|].
  destruct (exists_last (l := c :: ds)) as (l & d & Heq); [congruence|].
  assert (Hd : isdigit d = true).
  { rewrite Heq in Hds. apply Forall_app in Hds as [_ Hd].
    now inversion Hd. }
  destruct l as [|c' l]; simpl in Heq.
  - injection Heq as -> ->. unfold strip. simpl.
    rewrite (isdigit_not_int_space d Hd). simpl.
    now rewrite (isdigit_not_int_space d Hd).
  - injection Heq as -> ->.
    apply strip_solid_ends; apply isdigit_not_int_space; [|assumption].
    now inversion Hds.
Qed.

Lemma strip_signed (s : ascii) (ds : list ascii) :
  int_space s = false -> digits ds -> strip (s :: ds) = s :: ds.
Proof.
  intros Hs [Hne Hds].
  destruct (exists_last (l := ds)) as (l & d & ->); [assumption|].
  apply strip_solid_ends; [assumption|].
  apply Forall_app in Hds as [_ Hd]. apply isdigit_not_int_space.
  now inversion Hd.
Qed.

Lemma digits_head (ds : list ascii) :
  digits ds -> exists c l, ds = c :: l /\ isdigit c = true.
Proof.
  intros [Hne Hds]. destruct ds as [|c l]; [congruence|].
  exists c, l. split; [reflexivity|]. now inversion Hds.
Qed.

Lemma within_limit_not_over (l : list ascii) :
  within_limit l -> over_limit l = false.
Proof. intros Hl. apply Nat.ltb_ge. exact Hl. Qed.

Lemma within_limit_signed (s : ascii) (ds : list ascii) :
  isdigit s = false -> within_limit (s :: ds) -> within_limit ds.
Proof.
  unfold within_limit. cbn [count_digits]. intros Hs. now rewrite Hs.
Qed.

(** [int] reads a decimal integer token within the limit as the integer
    it denotes. *)
Lemma int_integer_token (tok : list ascii) (z : Z) :
  integer_token tok z -> within_limit tok -> int (text tok) = Ok z.
Proof.
  intros Htok Hlim. unfold int. rewrite chars_text.
  destruct Htok as [ds Hds|ds Hds|ds Hds].
  - rewrite strip_digits by assumption.
    apply within_limit_not_over in Hlim.
    destruct (digits_head ds Hds) as (c & l & -> & Hc).
    destruct Hds as [Hne Hds].
    assert (Hv := int_digits_value (c :: l) Hds 0 false (or_introl Hne)).
    rewrite Z.mul_0_l, Z.add_0_l in Hv.
    destruct c as [[] [] [] [] [] [] [] []]; try discriminate Hc;
      rewrite Hv, Hlim; reflexivity.
  - rewrite strip_signed by (reflexivity || assumption).
    apply within_limit_signed, within_limit_not_over in Hlim;
      [|reflexivity].
    destruct Hds as [Hne Hds].
    rewrite (int_digits_value ds Hds 0 false (or_introl Hne)), Hlim.
    reflexivity.
  - rewrite strip_signed by (reflexivity || assumption).
    apply within_limit_signed, within_limit_not_over in Hlim;
      [|reflexivity].
    destruct Hds as [Hne Hds].
    rewrite (int_digits_value ds Hds 0 false (or_introl Hne)), Hlim.
    reflexivity.
Qed.

Lemma comprehension_int_tokens (toks : list (list ascii)) (zs : list Z) :
  Forall2 integer_token toks zs ->
  Forall within_limit toks ->
  comprehension int (map text toks) = Ok zs.
Proof.
  induction 1 as [|tok z toks zs Htok _ IH]; intros Hlim; simpl;
    [reflexivity|].
  inversion Hlim as [|? ? Htok_lim Hrest]; subst.
  now rewrite (int_integer_token tok z Htok Htok_lim), IH.
Qed.

End Parsing.

(** ** The routing text *)
Section Routing.

Lemma int_raises_ValueError (t : string) (e : exn) :
  int t = Raise e -> e = ValueError.
Proof.
  unfold int. destruct (strip (chars t)) as [|c l].
  - simpl. congruence.
  - destruct c as [[] [] [] [] [] [] [] []];
      destruct (int_digits 0 false _); try congruence;
      destruct (over_limit _); congruence.
Qed.

Lemma comprehension_int_fails (ts : list string) :
  Exists (fun t => forall z, int t <> Ok z) ts ->
  comprehension int ts = Raise ValueError.
Proof.
  induction ts as [|t ts IH]; intros Hex; [inversion Hex|].
  simpl. destruct (int t) as [z|e] eqn:Ht.
  - rewrite IH; [reflexivity|].
    inversion Hex as [? ? Hbad|]; [|assumption].
    now destruct (Hbad z).
  - now rewrite (int_raises_ValueError t e Ht).
Qed.

Lemma comprehension_int_succeeds (ts : list string) (zs : list Z) :
  Forall2 (fun t z => int t = Ok z) ts zs ->
  comprehension int ts = Ok zs.
Proof.
  induction 1 as [|t z ts zs Ht _ IH]; simpl; [reflexivity|].
  now rewrite Ht, IH.
Qed.

End Routing.

(** ** Saving records to a CSV file *)
Section CSV.
Context `{PathLib}.

Ltac run_fs :=
  unfold save, _check_for_data_folder, _check_write_access, CSVFile,
    CSVFile_write, the_file, _create_file_path, access_F_OK, access_W_OK,
    exists_at, makedirs, open_append, write_row,
    try_except, bind, ret, raise, get, modify, _write; simpl.

(** Looking for the data folder, and making it, touches no file; with the
    folder there, it touches nothing. *)
Lemma check_for_data_folder_files (self : FileHandler) (r : result unit)
    (fs fs' : filesystem) :
  _check_for_data_folder self fs = (r, fs') ->
  files fs' = files fs
  /\ makedirs_outcome fs' = makedirs_outcome fs
  /\ (exists_at fs (data_directory self) = true -> r = Ok tt /\ fs' = fs).
Proof.
  destruct fs as [ds fl mk]. run_fs.
  destruct (defined (ds !! data_directory self)
            || defined (fl !! data_directory self)); simpl.
  - now intros [= <- <-].
  - destruct (mk ds fl (data_directory self)); simpl; now intros [= <- <-].
Qed.

(** What [save] does once the data folder has been looked after. *)
Local Abbreviation check_and_write self data :=
  (run! try_except (_check_write_access (_create_file_path self))
          (fun e => bool_decide (e = PermissionError))
          (fun e => raise e) in
   run! _write CSVFile (_create_file_path self) data in
   ret (_create_file_path self)).

Lemma save_unfold (self : FileHandler) (data : dict) (fs : filesystem) :
  save CSVFile self data fs
  = match _check_for_data_folder self fs with
    | (Ok _, fs1) => check_and_write self data fs1
    | (Raise e, fs1) => (Raise e, fs1)
    end.
Proof.
  unfold save. unfold bind at 1.
  now destruct (_check_for_data_folder self fs) as [[[]|e] fs1].
Qed.

Lemma check_and_write_ok (self self' : FileHandler) (data : dict)
    (fs fs' : filesystem) :
  check_and_write self data fs = (Ok self', fs') ->
  self' = _create_file_path self
  /\ contents fs' (target self)
     = contents fs (target self)
       ++ header_if_new fs (target self) data ++ [values data]
  /\ present fs' (target self) = true
  /\ (forall q, q <> target self -> files fs' !! q = files fs !! q)
  /\ (forall f, files fs !! target self = Some f ->
        writable <$> files fs' !! target self = Some (writable f))
  /\ dirs fs' = dirs fs
  /\ makedirs_outcome fs' = makedirs_outcome fs.
Proof.
  unfold contents, present, header_if_new, target.
  destruct self as [name dir f], fs as [ds fl mk]. simpl.
  set (p := join dir name).
  destruct (ds !! p) as [w|] eqn:Hp;
    destruct (fl !! p) as [[[|] r]|] eqn:Hf;
    destruct (ds !! parent p) as [[|]|] eqn:Hpp;
    destruct (fl !! parent p) as [g|] eqn:Hpf;
    try destruct w; try destruct g as [[|] ?];
    run_fs; fold p;
    rewrite ?Hp, ?Hf, ?Hpp, ?Hpf; simpl;
    rewrite ?lookup_insert_eq, ?Hp, ?Hf, ?Hpp, ?Hpf; simpl;
    rewrite ?lookup_insert_eq, ?Hp, ?Hf, ?Hpp, ?Hpf; simpl.
  all: try discriminate.
  all: intros Hsave; injection Hsave as <- <-; unfold present; simpl.
  all: rewrite ?lookup_alter_eq, ?lookup_insert_eq, ?Hf; simpl.
  all: repeat split; try reflexivity.
  all: try (intros q Hq;
            now rewrite ?lookup_alter_ne, ?lookup_insert_ne by congruence).
  all: intros f' Hf'; try discriminate Hf'; now injection Hf' as <-.
Qed.

Lemma save_csv_ok (self self' : FileHandler) (data : dict)
    (fs fs' : filesystem) :
  save CSVFile self data fs = (Ok self', fs') ->
  self' = _create_file_path self
  /\ contents fs' (target self)
     = contents fs (target self)
       ++ header_if_new fs (target self) data ++ [values data]
  /\ present fs' (target self) = true
  /\ (forall q, q <> target self -> files fs' !! q = files fs !! q).
Proof.
  rewrite save_unfold.
  destruct (_check_for_data_folder self fs) as [[[]|e] fs1] eqn:Hfolder;
    [|discriminate].
  apply check_for_data_folder_files in Hfolder as (Hfolder & _).
  intros Hrun. apply check_and_write_ok in Hrun.
  destruct Hrun as (Hself & Hrows & Hnow & Hother & _).
  unfold contents, header_if_new, present in *.
  rewrite Hfolder in *. auto.
Qed.

Lemma save_csv_frame (self self' : FileHandler) (data : dict)
    (fs fs' : filesystem) :
  save CSVFile self data fs = (Ok self', fs') ->
  (forall q, q <> target self -> files fs' !! q = files fs !! q)
  /\ (forall f, files fs !! target self = Some f ->
        writable <$> files fs' !! target self = Some (writable f))
  /\ (exists_at fs (data_directory self) = true -> dirs fs' = dirs fs)
  /\ makedirs_outcome fs' = makedirs_outcome fs.
Proof.
  rewrite save_unfold.
  destruct (_check_for_data_folder self fs) as [[[]|e] fs1] eqn:Hfolder;
    [|discriminate].
  apply check_for_data_folder_files in Hfolder as (Hfiles & Hmk & Hthere).
  intros Hrun. apply check_and_write_ok in Hrun.
  destruct Hrun as (_ & _ & _ & Hother & Hperm & Hdirs & Hmk').
  rewrite Hfiles in *. repeat split; try assumption.
  - intros Hdir. destruct (Hthere Hdir) as [_ ->]. exact Hdirs.
  - congruence.
Qed.

(** A refusal by the write-access check ends [save] before [_write]. *)
Lemma save_refused (cls : klass) (self : FileHandler) (data : dict)
    (fs : filesystem) :
  exists_at fs (data_directory self) = true ->
  dirs fs !! target self = None ->
  (exists f, files fs !! target self = Some f /\ writable f = false)
  \/ (files fs !! target self = None
      /\ dirs fs !! parent (target self) = Some false) ->
  save cls self data fs = (Raise PermissionError, fs).
Proof.
  unfold target. destruct self as [name dir f0], fs as [ds fl mk]. simpl.
  intros Hdir Hp Hcase. run_fs. unfold exists_at in Hdir. simpl in Hdir.
  rewrite Hdir. simpl. rewrite Hp.
  destruct Hcase as [(f & -> & Hw)|(-> & ->)]; simpl.
  - now rewrite Hw.
  - reflexivity.
Qed.

Lemma save_each_csv_ok (ds : list dict) :
  forall (self self' : FileHandler) (fs fs' : filesystem),
  save_each CSVFile self ds fs = (Ok self', fs') ->
  contents fs' (target self)
  = contents fs (target self)
    ++ match ds with
       | [] => []
       | d :: _ => header_if_new fs (target self) d
       end
    ++ map values ds.
Proof.
  induction ds as [|d ds IH]; intros self self' fs fs' Hrun.
  - injection Hrun as _ <-. simpl. now rewrite app_nil_r.
  - simpl in Hrun. unfold bind in Hrun.
    destruct (save CSVFile self d fs) as [[s1|e] fs1] eqn:Hsave;
      [|discriminate].
    destruct (save_csv_ok _ _ _ _ _ Hsave) as (-> & Hrows & Hnow & _).
    apply IH in Hrun. change (target (_create_file_path self))
      with (target self) in Hrun.
    assert (Hno : forall d', header_if_new fs1 (target self) d' = []).
    { intros d'. unfold header_if_new. now rewrite Hnow. }
    rewrite Hrun, Hrows.
    destruct ds; rewrite ?Hno; simpl; now rewrite <- !app_assoc.
Qed.

(** C10: a successful [save] of a [CSVFile] appends exactly one data row
    and keeps the rows that were there; the header row goes first exactly
    when the file did not exist just before; over successive saves a file
    gets at most one header, and none if it existed at the start. *)
Theorem C10_csv_save_appends_one_row :
  (forall (self self' : FileHandler) (data : dict)
          (fs fs' : filesystem),
     save CSVFile self data fs = (Ok self', fs') ->
     contents fs' (target self)
     = contents fs (target self)
       ++ (if present fs (target self) then [] else [keys data])
       ++ [values data])
  /\ (forall (self self' : FileHandler) (ds : list dict)
             (fs fs' : filesystem),
        save_each CSVFile self ds fs = (Ok self', fs') ->
        exists header,
          contents fs' (target self)
          = contents fs (target self) ++ header ++ map values ds
          /\ (length header <= 1)%nat
          /\ (present fs (target self) = true -> header = [])).
Proof.
  split.
  - intros self self' data fs fs' Hsave.
    now destruct (save_csv_ok _ _ _ _ _ Hsave) as (_ & Hrows & _).
  - intros self self' ds fs fs' Hrun.
    apply save_each_csv_ok in Hrun.
    eexists. split; [exact Hrun|].
    unfold header_if_new.
    destruct ds; [simpl; split; [lia|reflexivity]|].
    destruct (present fs (target self)); simpl; split;
      (lia || congruence || reflexivity).
Qed.

End CSV.

Lemma C10_witness :
  contents (save CSVFile csv_handler (trial_row "1") empty_disk).2
    (target csv_handler)
  = [] ++ [["subject"; "response"]%string] ++ [["s1"; "1"]%string].
Proof.
  apply (proj1 C10_csv_save_appends_one_row csv_handler
           (_create_file_path csv_handler) (trial_row "1") empty_disk).
  vm_compute. reflexivity.
Defined.


(** ** Constructing a file handler *)
Section Construction.

(** C9: constructing a handler raises exactly when the file name does not
    end with the [ext] of the class; [CSVFile.ext] is "csv" without a
    dot, so a name such as "datacsv" is accepted. *)
Theorem C9_init_raises_iff_wrong_ending :
  (forall (cls : klass) (e filename : string) (kwargs : gmap string string),
     ext cls = Some e ->
     (exists x, __init__ cls filename kwargs = Raise x)
     <-> ~ (exists prefix, filename = prefix +:+ e))
  /\ (forall (prefix : string) (kwargs : gmap string string),
        exists self, __init__ CSVFile (prefix +:+ "csv") kwargs = Ok self)
  /\ (forall kwargs : gmap string string,
        exists self, __init__ CSVFile "datacsv" kwargs = Ok self
                     /\ filehandler.filename self = "datacsv"%string).
Proof.
  assert (Hgen : forall cls e filename kwargs, ext cls = Some e ->
            (exists x, __init__ cls filename kwargs = Raise x)
            <-> ~ (exists prefix, filename = prefix +:+ e)).
  { intros cls e filename kwargs He. unfold __init__. rewrite He.
    rewrite <- endswith_spec.
    destruct (endswith filename e); simpl; split.
    - intros [x Hx]. discriminate Hx.
    - intros Hn. now destruct Hn.
    - intros _. discriminate.
    - intros _. now exists Exception. }
  split; [exact Hgen|]. split.
  - intros prefix kwargs.
    destruct (__init__ CSVFile (prefix +:+ "csv") kwargs) as [self|x]
      eqn:Hinit; [now exists self|].
    exfalso.
    apply (proj1 (Hgen CSVFile "csv"%string (prefix +:+ "csv") kwargs
                    eq_refl)); [now exists x|now exists prefix].
  - intros kwargs. eexists. split; reflexivity.
Qed.

Lemma C9_witness :
  (exists x, __init__ CSVFile "data.tsv" ∅ = Raise x)
  <-> ~ (exists prefix, "data.tsv"%string = prefix +:+ "csv").
Proof.
  apply (proj1 C9_init_raises_iff_wrong_ending CSVFile "csv"%string).
  reflexivity.
Defined.

End Construction.

(** ** Parsing the routing text *)
Section RoutingClaims.

(** C6 as stated fails: a token of 4301 digits is a decimal integer
    token, and [_format_routing] raises [ValueError] on it instead of
    returning its integer. *)
Lemma C6_counterexample :
  separated (chars (text long_token)) [long_token]
  /\ Forall2 integer_token [long_token] [decimal_value long_token]
  /\ _format_routing (text long_token) = Raise ValueError
  /\ _format_routing (text long_token) <> Ok [decimal_value long_token].
Proof.
  assert (Hdigits : digits long_token).
  { split.
    - intros Hnil. apply (f_equal length) in Hnil.
      unfold long_token in Hnil. rewrite length_replicate in Hnil.
      discriminate Hnil.
    - apply Forall_replicate. reflexivity. }
  assert (Hrun : _format_routing (text long_token) = Raise ValueError)
    by (vm_compute; reflexivity).
  split; [|split; [|split]].
  - rewrite chars_text.
    rewrite <- (app_nil_r long_token) at 1.
    apply (separated_cons [] long_token [] []).
    + constructor.
    + split; [now destruct Hdigits|].
      apply Forall_replicate. reflexivity.
    + intros c [=].
    + apply separated_nil. constructor.
  - constructor; [apply token_plain; exact Hdigits|constructor].
  - exact Hrun.
  - rewrite Hrun. discriminate.
Qed.

(** C6 (amended): for a text of whitespace-separated decimal integer
    tokens, none with more digits than [int] converts (4300),
    [_format_routing] returns the integers that the tokens denote, in
    token order and as many as there are tokens; "1 2" gives [1, 2]. *)
Theorem C6_format_routing_decimal_tokens :
  (forall (routing : string) (toks : list (list ascii)) (zs : list Z),
     separated (chars routing) toks ->
     Forall2 integer_token toks zs ->
     Forall within_limit toks ->
     _format_routing routing = Ok zs /\ length zs = length toks)
  /\ _format_routing "1 2" = Ok [1; 2].
Proof.
  split; [|reflexivity].
  intros routing toks zs Hsep Htoks Hlim. split.
  - unfold _format_routing, split.
    rewrite (split_from_separated _ _ Hsep).
    now apply comprehension_int_tokens.
  - symmetry. eapply Forall2_length. exact Htoks.
Qed.

Lemma C6_witness :
  _format_routing " 7  42" = Ok [7; 42]
  /\ length [7; 42] = length [chars "7"; chars "42"].
Proof.
  apply (proj1 C6_format_routing_decimal_tokens " 7  42"
           [chars "7"; chars "42"] [7; 42]).
  - apply (separated_cons (chars " ") (chars "7") (chars "  42")).
    + repeat constructor.
    + split; [discriminate|repeat constructor].
    + intros c [= <-]. reflexivity.
    + apply (separated_cons (chars "  ") (chars "42") []).
      * repeat constructor.
      * split; [discriminate|repeat constructor].
      * intros c [=].
      * apply separated_nil. constructor.
  - constructor; [|constructor; [|constructor]].
    + apply (token_plain (chars "7")).
      split; [discriminate|repeat constructor].
    + apply (token_plain (chars "42")).
      split; [discriminate|repeat constructor].
  - repeat constructor; unfold within_limit; simpl; unfold max_str_digits;
      lia.
Defined.

(** C3 as stated fails: "1 x" has a token without any digit, and parsing
    it does not end in [InvalidRouting]. *)
Lemma C3_counterexample :
  Exists (fun t => Forall (fun c => isdigit c = false) (chars t))
    (split "1 x")
  /\ _format_routing "1 x" <> Raise InvalidRouting.
Proof.
  split.
  - apply Exists_cons_tl, Exists_cons_hd. repeat constructor.
  - discriminate.
Qed.

End RoutingClaims.

(** ** Presenting and stopping audio *)
Section Playback.
Context `{GainLaw}.

Ltac run_ctl :=
  unfold _play, stop_audio, the_a, Audio_play, Audio_stop,
    Audio_plot_waveform, _show_audio_dialog, _show_session_dialog,
    showerror, showinfo, getvar, emit, upd_app, upd_env, lift,
    try_except, bind, ret, raise, get, modify; simpl.

(** C7: [stop_audio] never raises, whether or not an audio object exists
    and whether or not the device is playing, and a second call right
    after the first changes nothing. *)
Theorem C7_stop_audio_safe_and_idempotent (st : state) :
  (stop_audio st).1 = Ok tt
  /\ stop_audio (stop_audio st).2 = (Ok tt, (stop_audio st).2)
  /\ playing (env (stop_audio st).2)
     = playing (env st) && negb (defined (a (app st))).
Proof.
  destruct st as [x w]. run_ctl.
  destruct (a x) as [au|] eqn:Ha; simpl.
  - destruct (playing w) eqn:Hp; simpl; rewrite ?Ha; simpl;
      rewrite ?Hp; auto.
  - rewrite Ha. simpl. rewrite andb_true_r. auto.
Qed.

(** C2: when the gain-applied signal clips, [_play] submits nothing to
    the device; it reports the failure and plots the waveform scaled by
    the requested level itself, which is the buffer that clipped. *)
Theorem C2_clipping_is_a_hard_stop (st : state) (au : Audio) (level : float)
    (device : value) (routing : string) (channels : list Z) :
  a (app st) = Some au ->
  destroyed (app st) = false ->
  sessionpars (app st) !! "audio_device"%string = Some device ->
  sessionpars (app st) !! "channel_routing"%string = Some (VStr routing) ->
  _format_routing routing = Ok channels ->
  length channels = channel_count au ->
  check_clipping (apply_gain level au) = true ->
  _play level st = (Ok tt, after_clipping level au st)
  /\ Forall (fun e => forall d r b, e <> DeviceSubmit d r b)
       (drop (length (trace (env st)))
          (trace (env (_play level st).2)))
  /\ playing (env (_play level st).2) = playing (env st).
Proof.
  intros Ha Hlive Hdev Hroute Hparse Hlen Hclip.
  assert (Hrun : _play level st = (Ok tt, after_clipping level au st)).
  { destruct st as [x w]. simpl in *. run_ctl.
    repeat (first [rewrite Ha|rewrite Hdev|rewrite Hlive|rewrite Hroute
                  |rewrite Hparse]; simpl).
    unfold validate. simpl.
    rewrite bool_decide_eq_true_2 by assumption. simpl.
    rewrite Hclip. simpl. unfold after_clipping. simpl.
    now rewrite <- app_assoc. }
  rewrite Hrun. split; [reflexivity|]. split; [|reflexivity].
  simpl. rewrite drop_app_length.
  repeat constructor; discriminate.
Qed.

(** C3 (amended): [_format_routing] splits the text on whitespace and
    converts each token with [int]; when a token is not an integer
    literal the conversion raises [ValueError], and [_play] has no clause
    for it, so it reaches the caller as it is, with nothing reported and
    nothing sent to the device. *)
Theorem C3_unparsable_routing_raises_ValueError (st : state) (au : Audio)
    (level : float) (device : value) (routing : string) :
  a (app st) = Some au ->
  destroyed (app st) = false ->
  sessionpars (app st) !! "audio_device"%string = Some device ->
  sessionpars (app st) !! "channel_routing"%string = Some (VStr routing) ->
  (forall zs, Forall2 (fun t z => int t = Ok z) (split routing) zs ->
              _format_routing routing = Ok zs)
  /\ (Exists (fun t => forall z, int t <> Ok z) (split routing) ->
      _format_routing routing = Raise ValueError
      /\ _play level st = (Raise ValueError, st)).
Proof.
  intros Ha Hlive Hdev Hroute. split.
  - intros zs Hzs. now apply comprehension_int_succeeds.
  - intros Hbad.
    assert (Hparse : _format_routing routing = Raise ValueError)
      by now apply comprehension_int_fails.
    split; [exact Hparse|].
    destruct st as [x w]. simpl in *. run_ctl.
    repeat (first [rewrite Ha|rewrite Hdev|rewrite Hlive|rewrite Hroute
                  |rewrite Hparse]; simpl).
    reflexivity.
Qed.

End Playback.

(** ** Loading the audio of a presentation request *)
Section Loading.
Context `{GainLaw}.

Ltac run_load :=
  unfold present_audio, _create_audio_object, Audio_init,
    _show_session_dialog, showerror, emit, upd_app, upd_env,
    try_except, bind, ret, raise, get, modify; simpl.

(** An input of the wrong type ends the request: one message, and
    [_play] is not reached. *)
Lemma present_audio_invalid_type (st : state) (level : float)
    (kwargs : option Z) :
  present_audio FromOther level kwargs st
  = (Ok tt,
     {| app := app st;
        env := with_trace (trace (env st)
                           ++ [ShowError "Invalid Audio Type"])
                 (env st) |}).
Proof. destruct st. reflexivity. Qed.

(** So does a buffer without a sampling rate. *)
Lemma present_audio_missing_rate (st : state) (level : float)
    (buffer : list frame) (channels : nat) :
  present_audio (FromBuffer buffer channels) level None st
  = (Ok tt,
     {| app := app st;
        env := with_trace (trace (env st)
                           ++ [ShowError "Missing Sampling Rate"])
                 (env st) |}).
Proof. destruct st. reflexivity. Qed.

(** A path that does not resolve does not end the request: after the
    message and the session dialog, [_play] runs on whatever [self.a]
    held before. *)
Lemma present_audio_missing_file (st : state) (level : float) (p : string)
    (kwargs : option Z) :
  audio_files (env st) !! p = None ->
  present_audio (FromPath p) level kwargs st
  = _play level
      {| app := app st;
         env := with_trace (trace (env st)
                            ++ [ShowError "File Not Found"; SessionDialog])
                  (env st) |}.
Proof.
  intros Hp. destruct st as [x w]. simpl in Hp. run_load.
  rewrite Hp. simpl. now rewrite <- app_assoc.
Qed.

End Loading.

(** ** The session of the examples *)
Section SessionRuns.

Example first_trial_trace :
  trace (env after_first_trial)
  = [MenuDisabled "Start Task"; BindKey "1"; BindKey "2"; TrialLabel 1 2;
     DeviceSubmit 1 [1] [[1%float]; [(-0.5)%float]]].
Proof. vm_compute. reflexivity. Qed.

Example first_trial_level :
  sessionpars (app after_first_trial) !! "adjusted_level_dB"%string
  = Some (VFloat (-20)).
Proof. vm_compute. reflexivity. Qed.

(** C1, at a request the code mishandles: the file of the second trial
    is missing; the failure is reported, and then the audio object of
    the first trial is played again. *)
Theorem C1_missing_file_does_not_stop_playback :
  (present_audio (H := step_gain) (FromPath "missing.wav") (-20)
     None after_first_trial).1 = Ok tt
  /\ drop (length (trace (env after_first_trial)))
       (trace (env (present_audio (H := step_gain)
                      (FromPath "missing.wav") (-20) None
                      after_first_trial).2))
     = [ShowError "File Not Found"; SessionDialog;
        DeviceSubmit 1 [1] [[1%float]; [(-0.5)%float]]].
Proof. split; vm_compute; reflexivity. Qed.

(** The same on the path of a submitted trial. *)
Example second_trial_trace :
  drop (length (trace (env after_first_trial)))
    (trace (env (_on_submit (H := step_gain) answered_yes).2))
  = [SaveRecord
       [("subject", VStr "s1"); ("condition", VStr "quiet");
        ("randomize", VInt 0); ("repetitions", VInt 1);
        ("slm_reading", VFloat 68); ("cal_level_dB", VFloat (-17));
        ("slm_offset", VFloat (-85)); ("desired_level_dB", VFloat 65);
        ("adjusted_level_dB", VFloat (-20))]%string;
     TrialLabel 2 2; ShowError "File Not Found"; SessionDialog;
     DeviceSubmit 1 [1] [[1%float]; [(-0.5)%float]]].
Proof. vm_compute. reflexivity. Qed.

(** Stopping before any audio object exists, and twice after a trial was
    presented: no exception, and the device is stopped once. *)
Example stop_before_any_play :
  stop_audio at_launch = (Ok tt, at_launch).
Proof. reflexivity. Qed.

Example stop_twice_after_play :
  (stop_audio
     (stop_audio after_first_trial).2).1 = Ok tt
  /\ drop (length (trace (env after_first_trial)))
       (trace (env (stop_audio
                      (stop_audio after_first_trial).2).2))
     = [DeviceStop].
Proof. split; vm_compute; reflexivity. Qed.

(** The calibration of section 8 of the specification: level 70, reading
    68, desired level 65. *)
Example calibration_scenario :
  compute_offset 70 68 = 2%float
  /\ compute_adjusted_level 65 (compute_offset 70 68) = 67%float
  /\ (65 + 70 - 68)%float = 67%float.
Proof. repeat split; vm_compute; reflexivity. Qed.

End SessionRuns.

(** ** Calibration and the trial loop *)
Section Trials.
Context `{GainLaw}.

Ltac run_trial :=
  unfold start_task, _on_submit, _save_trial_data, csvmodel_save_record,
    _create_filename, _update_trial_label, widget, iloc, destroy,
    _calc_offset, _calc_level, calmodel_calc_offset, calmodel_calc_level,
    _save_sessionpars, get_number, getvar, setvar, showerror, showinfo,
    emit, upd_app, upd_env, lift, try_except, bind, ret, raise, get,
    modify; simpl.

Lemma select_keys (sp : gmap string value) (ks : list string)
    (data : list (string * value)) :
  select sp ks = Some data -> map fst data = ks.
Proof.
  unfold select. intros Hsel. apply mapM_Some in Hsel.
  induction Hsel as [|k kv ks data Hk _ IH]; simpl; [reflexivity|].
  f_equal; [|exact IH].
  destruct (sp !! k); simpl in Hk; [|discriminate].
  now injection Hk as <-.
Qed.

(** C4 as stated fails in float arithmetic: for the levels 0.1, 0.2 and
    0.3 the adjusted level, 0.1 + (0.2 - 0.3), is not 0.1 + 0.2 - 0.3. *)
Lemma C4_counterexample :
  compute_adjusted_level 0.1 (compute_offset 0.2 0.3)
  <> (0.1 + 0.2 - 0.3)%float.
Proof.
  intros Heq.
  apply (f_equal (fun x => PrimFloat.eqb x (0.1 + 0.2 - 0.3)%float)) in Heq.
  vm_compute in Heq. discriminate Heq.
Qed.

(** C4 (amended): the offset is the float difference of the calibration
    level and the meter reading, for all floats and with no failure case:
    the exact difference rounded once to binary64.  The adjusted level
    computed with it is the float sum of the desired level and that
    difference, rounded once more, which is 67 for the levels 70, 68 and
    65; and [_calc_level] stores this sum, and saves it, when the session
    parameters hold that offset. *)
Theorem C4_offset_and_adjusted_level :
  (forall c s : float,
     compute_offset c s = (c - s)%float
     /\ Prim2SF (compute_offset c s) = SF64sub (Prim2SF c) (Prim2SF s))
  /\ (forall c s d : float,
        compute_adjusted_level d (compute_offset c s)
        = (d + (c - s))%float
        /\ Prim2SF (compute_adjusted_level d (compute_offset c s))
           = SF64add (Prim2SF d) (SF64sub (Prim2SF c) (Prim2SF s)))
  /\ (compute_offset 70 68 = 2%float
      /\ compute_adjusted_level 65 (compute_offset 70 68) = 67%float)
  /\ (forall (st : state) (c s d : float) (old : value),
        destroyed (app st) = false ->
        sessionpars (app st) !! "slm_offset"%string
        = Some (VFloat (compute_offset c s)) ->
        sessionpars (app st) !! "adjusted_level_dB"%string = Some old ->
        _calc_level d st = (Ok tt, adjusted (d + (c - s)) st)).
Proof.
  split; [|split; [|split]].
  - intros c s. split; [reflexivity|]. apply sub_spec.
  - intros c s d. split; [reflexivity|].
    unfold compute_adjusted_level, compute_offset.
    now rewrite add_spec, sub_spec.
  - split; vm_compute; reflexivity.
  - intros [x w] c s d old Hlive Ho Ha. simpl in *. run_trial.
    repeat (first [rewrite Ho|rewrite Ha|rewrite Hlive]; simpl).
    reflexivity.
Qed.

Lemma select_defined (sp : gmap string value) (ks : list string)
    (data : list (string * value)) (k : string) :
  select sp ks = Some data -> k ∈ ks -> is_Some (sp !! k).
Proof.
  unfold select. intros Hsel Hk. apply mapM_Some in Hsel.
  induction Hsel as [|k' kv ks data Hk' _ IH]; [inversion Hk|].
  apply elem_of_cons in Hk as [->|Hk]; [|now apply IH].
  destruct (sp !! k'); [eauto|discriminate].
Qed.

Local Arguments select : simpl never.

(** Whatever the response is, [_save_trial_data] hands over the same
    record: the response is not read. *)
Lemma save_trial_data_ignores_response (x : App) (w : World) (r : Z) :
  (_save_trial_data {| app := with_response r x; env := w |}).1
  = (_save_trial_data {| app := x; env := w |}).1
  /\ env (_save_trial_data {| app := with_response r x; env := w |}).2
     = env (_save_trial_data {| app := x; env := w |}).2.
Proof.
  run_trial.
  destruct (destroyed x && negb (bool_decide (sessionpars x = ∅)));
    simpl; [split; reflexivity|].
  destruct (select (sessionpars x) save_list); simpl;
    [|split; reflexivity].
  destruct (csv_failure w) as [e|]; simpl; [|split; reflexivity].
  destruct (is_OSError e); simpl; [|split; reflexivity].
  destruct e; split; reflexivity.
Qed.

(** The record that is handed over has the keys of [save_list]. *)
Lemma save_trial_data_record (st : state) :
  exists events,
    trace (env (_save_trial_data st).2) = trace (env st) ++ events
    /\ forall data, SaveRecord data ∈ events -> map fst data = save_list.
Proof.
  destruct st as [x w]. run_trial.
  destruct (destroyed x && negb (bool_decide (sessionpars x = ∅)));
    simpl; [exists []; rewrite app_nil_r; split; [reflexivity|]|].
  { intros data Hin. inversion Hin. }
  destruct (select (sessionpars x) save_list) as [data'|] eqn:Hsel; simpl.
  2: { eexists. rewrite <- app_assoc. split; [reflexivity|].
       intros data Hin. simpl in Hin.
       rewrite !elem_of_cons, elem_of_nil in Hin.
       destruct Hin as [Hin|[Hin|[]]]; discriminate Hin. }
  assert (Hkeys : forall data events,
            Forall (fun e => forall d, e <> SaveRecord d) events ->
            SaveRecord data ∈ SaveRecord data' :: events ->
            map fst data = save_list).
  { intros data events Hev Hin.
    apply elem_of_cons in Hin as [Hin|Hin].
    - injection Hin as ->. exact (select_keys _ _ _ Hsel).
    - rewrite Forall_forall in Hev. now destruct (Hev _ Hin data). }
  destruct (csv_failure w) as [e|]; simpl.
  2: { eexists. split; [reflexivity|]. intros data.
       apply Hkeys. constructor. }
  destruct (is_OSError e); simpl.
  2: { eexists. split; [reflexivity|]. intros data.
       apply Hkeys. constructor. }
  destruct e; simpl; eexists; rewrite <- app_assoc;
    (split; [reflexivity|]); intros data; apply Hkeys;
    repeat constructor; discriminate.
Qed.

Local Arguments present_audio : simpl never.

(** C8: on the path of the first trial and on the path of every later
    trial, the level handed to [present_audio] is computed just before
    from the desired level of that trial and the stored offset, whatever
    adjusted level the session parameters held before. *)
Theorem C8_level_recomputed_before_each_presentation :
  (forall (st : state) (p : string) (d : float) (rest : list (string * float))
          (v : value) (o : float),
     destroyed (app st) = false ->
     is_Some (sessionpars (app st) !! "subject"%string) ->
     is_Some (sessionpars (app st) !! "condition"%string) ->
     is_Some (sessionpars (app st) !! "adjusted_level_dB"%string) ->
     stimulus_matrix (env st) = Some ((p, d) :: rest) ->
     sessionpars (app st) !! "slm_offset"%string = Some v ->
     as_number v = Ok o ->
     exists st1,
       start_task st
       = present_audio (FromPath p) (compute_adjusted_level d o) None st1
       /\ sessionpars (app st1) !! "adjusted_level_dB"%string
          = Some (VFloat (compute_adjusted_level d o)))
  /\ (forall (st : state) (n : nat) (m : list (string * float)) (p : string)
             (d : float) (data : list (string * value)) (v : value) (o : float),
        destroyed (app st) = false ->
        trial_counter (app st) = Some n ->
        matrix (app st) = Some m ->
        m !! (n + 1)%nat = Some (p, d) ->
        select (sessionpars (app st)) save_list = Some data ->
        (forall e, csv_failure (env st) = Some e -> is_OSError e = true) ->
        sessionpars (app st) !! "slm_offset"%string = Some v ->
        as_number v = Ok o ->
        exists st1,
          _on_submit st
          = present_audio (FromPath p) (compute_adjusted_level d o) None
              st1
          /\ sessionpars (app st1) !! "adjusted_level_dB"%string
             = Some (VFloat (compute_adjusted_level d o))).
Proof.
  split.
  - intros [x w] p d rest v o Hlive [sj Hsj] [cd Hcd] [ad Had] Hm Hv Ho.
    simpl in *. run_trial.
    destruct (first_run_flag x); simpl;
      repeat (first [rewrite Hsj|rewrite Hcd|rewrite Had|rewrite Hlive
                    |rewrite Hm|rewrite Hv|rewrite Ho
                    |rewrite lookup_insert_eq]; simpl).
    all: eexists; (split; [reflexivity|]); simpl.
    all: apply lookup_insert_eq.
  - intros [x w] n m p d data v o Hlive Hn Hm Hrow Hsel Hcsv Hv Ho.
    cbn [app env] in *.
    assert (Hlt : (n + 1 <? length m)%nat = true).
    { apply Nat.ltb_lt. eapply lookup_lt_Some. exact Hrow. }
    destruct (select_defined _ _ _ "adjusted_level_dB"%string Hsel)
      as [ad Had]; [unfold save_list; set_solver|].
    assert (Hos : match csv_failure w with
                  | Some e => is_OSError e = true
                  | None => True
                  end).
    { destruct (csv_failure w); [now apply Hcsv|exact I]. }
    run_trial. rewrite Hn. simpl.
    destruct (response x =? 0); [|destruct (response x =? 1)]; simpl.
    all: rewrite Hlive; simpl; rewrite Hsel; simpl.
    all: destruct (csv_failure w) as [[]|]; simpl in Hos;
           try discriminate Hos; simpl.
    all: repeat (first [rewrite Hm|rewrite Hlt|rewrite Hlive|rewrite Hrow
                       |rewrite Hv|rewrite Ho|rewrite Had
                       |rewrite lookup_insert_eq]; simpl).
    all: eexists; (split; [reflexivity|]); simpl.
    all: apply lookup_insert_eq.
Qed.

End Trials.

(** ** The claims on the session of the examples *)
Section SessionClaims.

Lemma C2_witness :
  _play (H := step_gain) 3 with_tone
  = (Ok tt, after_clipping (H := step_gain) 3 loaded_tone with_tone)
  /\ Forall (fun e => forall d r b, e <> DeviceSubmit d r b)
       (drop (length (trace (env with_tone)))
          (trace (env (_play (H := step_gain) 3 with_tone).2)))
  /\ playing (env (_play (H := step_gain) 3 with_tone).2)
     = playing (env with_tone).
Proof.
  apply (C2_clipping_is_a_hard_stop (H := step_gain) with_tone
           loaded_tone 3 (VInt 1) "1" [1]);
    vm_compute; reflexivity.
Defined.

Lemma C3_witness :
  _format_routing "1 x" = Raise ValueError
  /\ _play (H := step_gain) 0 (with_routing "1 x")
     = (Raise ValueError, with_routing "1 x").
Proof.
  apply (proj2 (C3_unparsable_routing_raises_ValueError
                  (H := step_gain) (with_routing "1 x") loaded_tone 0
                  (VInt 1) "1 x" eq_refl eq_refl eq_refl eq_refl)).
  apply Exists_cons_tl, Exists_cons_hd. intros z. discriminate.
Defined.

Lemma C4_witness :
  _calc_level 65 at_launch
  = (Ok tt, adjusted (65 + ((-17) - 68)) at_launch).
Proof.
  apply (proj2 (proj2 (proj2 C4_offset_and_adjusted_level)) at_launch
           (-17)%float
           68%float 65%float (VFloat (-20)));
    vm_compute; reflexivity.
Defined.

Lemma C8_witness :
  (exists st1,
     start_task (H := step_gain) at_launch
     = present_audio (H := step_gain) (FromPath "tone.wav")
         (compute_adjusted_level 65 (-85)) None st1
     /\ sessionpars (app st1) !! "adjusted_level_dB"%string
        = Some (VFloat (compute_adjusted_level 65 (-85))))
  /\ (exists st1,
        _on_submit (H := step_gain) answered_yes
        = present_audio (H := step_gain) (FromPath "missing.wav")
            (compute_adjusted_level 60 (-85)) None st1
        /\ sessionpars (app st1) !! "adjusted_level_dB"%string
           = Some (VFloat (compute_adjusted_level 60 (-85)))).
Proof.
  split.
  - apply (proj1 (C8_level_recomputed_before_each_presentation
                    (H := step_gain)) at_launch "tone.wav"%string 65%float
             [("missing.wav"%string, 60%float)] (VFloat (-85)) (-85)%float);
      try (vm_compute; reflexivity); vm_compute; eauto.
  - eapply (proj2 (C8_level_recomputed_before_each_presentation
                     (H := step_gain)) answered_yes 0%nat
              [("tone.wav"%string, 65%float); ("missing.wav"%string, 60%float)]
              "missing.wav"%string 60%float _ (VFloat (-85)) (-85)%float);
      try (vm_compute; reflexivity).
    intros e He. vm_compute in He. discriminate He.
Defined.

(** C5, at a trial the code mishandles: the first trial is answered and
    submitted; the record handed to the CSV model has the nine keys of
    [save_list], "response" is not one of them, and the record is the
    same whether the answer was yes or no. *)
Theorem C5_saved_record_leaves_out_response :
  response (app answered_yes) = 1 /\ response (app answered_no) = 0
  /\ trace (env (_on_submit (H := step_gain) answered_yes).2)
     = trace (env (_on_submit (H := step_gain) answered_no).2)
  /\ (exists data,
        trace (env (_on_submit (H := step_gain) answered_yes).2)
          !! 5%nat = Some (SaveRecord data)
        /\ map fst data = save_list
        /\ Forall (fun e => forall d, e = SaveRecord d -> d = data)
             (trace (env (_on_submit (H := step_gain) answered_yes).2)))
  /\ ("response"%string ∉ save_list).
Proof.
  split; [reflexivity|]. split; [reflexivity|].
  split; [vm_compute; reflexivity|]. split.
  - eexists. split; [vm_compute; reflexivity|].
    split; [reflexivity|].
    vm_compute. repeat constructor; intros d' Hd; try discriminate Hd.
    now injection Hd as <-.
  - unfold save_list. rewrite !elem_of_cons, elem_of_nil.
    intros Hin. repeat destruct Hin as [Hin|Hin]; discriminate || exact Hin.
Qed.

End SessionClaims.


(** ** More on saving: failures and what a save leaves alone *)
Section SaveOutcomes.
Context `{PathLib}.

(** X1: with the data directory there, a file that is read-only, or
    missing from a directory that is not writable, makes [save] raise
    [PermissionError] before the [_write] of the class is reached: the
    file system is left as it was. *)
Theorem X1_refused_save_raises_before_write (cls : klass)
    (self : FileHandler) (data : dict) (fs : filesystem) :
  exists_at fs (data_directory self) = true ->
  dirs fs !! target self = None ->
  (exists f, files fs !! target self = Some f /\ writable f = false)
  \/ (files fs !! target self = None
      /\ dirs fs !! parent (target self) = Some false) ->
  save cls self data fs = (Raise PermissionError, fs).
Proof. apply save_refused. Qed.

(** X2: [_write] of a [CSVFile] whose path was never made raises
    [AttributeError] where the message reads [self.file], before the
    [try], so its own handler does not catch it; nothing is written. *)
Theorem X2_write_without_path_raises (self : FileHandler) (data : dict)
    (fs : filesystem) :
  file_ self = None ->
  _write CSVFile self data fs = (Raise AttributeError, fs).
Proof.
  intros Hunset. simpl. unfold CSVFile_write, the_file, bind, raise.
  now rewrite Hunset.
Qed.

(** X3: a successful save leaves every other file as it was, keeps the
    permission of its own file, and leaves the directories as they were
    when the data directory was there. *)
Theorem X3_save_frame (self self' : FileHandler) (data : dict)
    (fs fs' : filesystem) :
  save CSVFile self data fs = (Ok self', fs') ->
  (forall q, q <> target self -> files fs' !! q = files fs !! q)
  /\ (forall f, files fs !! target self = Some f ->
        writable <$> files fs' !! target self = Some (writable f))
  /\ (exists_at fs (data_directory self) = true -> dirs fs' = dirs fs)
  /\ makedirs_outcome fs' = makedirs_outcome fs.
Proof. apply save_csv_frame. Qed.

End SaveOutcomes.

Lemma X1_witness :
  save CSVFile csv_handler (trial_row "1") read_only_disk
  = (Raise PermissionError, read_only_disk).
Proof.
  apply (X1_refused_save_raises_before_write CSVFile csv_handler
           (trial_row "1") read_only_disk).
  - vm_compute. reflexivity.
  - vm_compute. reflexivity.
  - left. eexists. split; vm_compute; reflexivity.
Defined.

Lemma X2_witness :
  _write CSVFile csv_handler (trial_row "1") empty_disk
  = (Raise AttributeError, empty_disk).
Proof.
  apply (X2_write_without_path_raises csv_handler (trial_row "1")
           empty_disk).
  reflexivity.
Defined.

Lemma X3_witness :
  (forall q, q <> target csv_handler ->
     files (save CSVFile csv_handler (trial_row "1") empty_disk).2 !! q
     = files empty_disk !! q)
  /\ (forall f, files empty_disk !! target csv_handler = Some f ->
        writable
          <$> files (save CSVFile csv_handler (trial_row "1")
                       empty_disk).2 !! target csv_handler
        = Some (writable f))
  /\ (exists_at empty_disk (data_directory csv_handler) = true ->
      dirs (save CSVFile csv_handler (trial_row "1") empty_disk).2
      = dirs empty_disk)
  /\ makedirs_outcome (save CSVFile csv_handler (trial_row "1")
                         empty_disk).2
     = makedirs_outcome empty_disk.
Proof.
  apply (X3_save_frame csv_handler (_create_file_path csv_handler)
           (trial_row "1") empty_disk).
  vm_compute. reflexivity.
Defined.

(** ** More on the routing text *)
Section RoutingOutcomes.

Lemma separated_blank_cons (c : ascii) (l : list ascii)
    (toks : list (list ascii)) :
  isspace c = true -> separated l toks -> separated (c :: l) toks.
Proof.
  intros Hc Hsep. destruct Hsep as [ws Hws|ws tok rest toks Hws Htok Hh Hs].
  - apply separated_nil. now constructor.
  - apply (separated_cons (c :: ws) tok rest toks); try assumption.
    now constructor.
Qed.

Lemma split_from_is_separated (l : list ascii) :
  forall cur, Forall (fun c => isspace c = false) cur ->
  separated (cur ++ l) (split_from cur l).
Proof.
  induction l as [|c l IH]; intros cur Hcur; simpl.
  - destruct cur as [|c0 cur]; simpl.
    + apply separated_nil. constructor.
    + apply (separated_cons [] (c0 :: cur) [] []).
      * constructor.
      * split; [discriminate|assumption].
      * intros c [=].
      * apply separated_nil. constructor.
  - destruct (isspace c) eqn:Hc.
    + assert (Hrest : separated (c :: l) (split_from [] l)).
      { apply separated_blank_cons; [assumption|]. apply (IH []).
        constructor. }
      destruct cur as [|c0 cur]; simpl; [exact Hrest|].
      apply (separated_cons [] (c0 :: cur) (c :: l)).
      * constructor.
      * split; [discriminate|assumption].
      * intros c' [= <-]. exact Hc.
      * exact Hrest.
    + replace (cur ++ c :: l) with ((cur ++ [c]) ++ l)
        by now rewrite <- app_assoc.
      apply IH. apply Forall_app. split; [assumption|].
      now repeat constructor.
Qed.

Lemma split_separated_iff (routing : string) (toks : list (list ascii)) :
  separated (chars routing) toks <-> split routing = map text toks.
Proof.
  unfold split. split.
  - intros Hsep. now rewrite (split_from_separated _ _ Hsep).
  - intros Heq.
    assert (Hsep : separated (chars routing)
                     (split_from [] (chars routing))).
    { apply (split_from_is_separated (chars routing) []). constructor. }
    assert (Hinj : split_from [] (chars routing) = toks).
    { apply (f_equal (map chars)) in Heq.
      assert (Hid : forall k : list (list ascii), map chars (map text k) = k).
      { induction k as [|t k IHk]; simpl; [reflexivity|].
        now rewrite chars_text, IHk. }
      now rewrite !Hid in Heq. }
    now rewrite <- Hinj.
Qed.

(** X4: [split] returns exactly the tokens of the text: the text is these
    tokens, each non-empty and free of whitespace, with whitespace before,
    between and after them, and no other list of tokens fits. *)
Theorem X4_split_gives_the_tokens (routing : string)
    (toks : list (list ascii)) :
  separated (chars routing) toks <-> split routing = map text toks.
Proof. apply split_separated_iff. Qed.

Lemma comprehension_length {A B} (f : A -> result B) (xs : list A)
    (ys : list B) :
  comprehension f xs = Ok ys -> length ys = length xs.
Proof.
  revert ys. induction xs as [|x xs IH]; intros ys; simpl.
  - now intros [= <-].
  - destruct (f x); [|discriminate].
    destruct (comprehension f xs) as [ys'|]; [|discriminate].
    intros [= <-]. simpl. f_equal. now apply IH.
Qed.

(** X5: the routing list is empty exactly when the text is empty or all
    whitespace; no exception is raised for such a text. *)
Theorem X5_blank_routing_is_empty (routing : string) :
  _format_routing routing = Ok [] <-> blank (chars routing).
Proof.
  split.
  - intros Hrun. apply comprehension_length in Hrun.
    simpl in Hrun. symmetry in Hrun. apply length_zero_iff_nil in Hrun.
    assert (Hsep : separated (chars routing) [])
      by (apply split_separated_iff; exact Hrun).
    now inversion Hsep.
  - intros Hblank. unfold _format_routing.
    now rewrite (proj1 (split_separated_iff routing [])
                   (separated_nil _ Hblank)).
Qed.

Lemma comprehension_Ok {A B} (f : A -> result B) (xs : list A)
    (ys : list B) :
  comprehension f xs = Ok ys <-> Forall2 (fun x y => f x = Ok y) xs ys.
Proof.
  revert ys. induction xs as [|x xs IH]; intros ys; simpl.
  - split; [intros [= <-]; constructor|]. intros Hall.
    now inversion Hall.
  - destruct (f x) as [y|e] eqn:Hx.
    + destruct (comprehension f xs) as [ys'|e] eqn:Hxs; split.
      * intros [= <-]. constructor; [assumption|]. now apply IH.
      * intros Hall. inversion Hall as [|? y' ? ys'' Hy Hrest]; subst.
        apply IH in Hrest. congruence.
      * discriminate.
      * intros Hall. inversion Hall as [|? y' ? ys'' Hy Hrest]; subst.
        apply IH in Hrest. discriminate Hrest.
    + split; [discriminate|]. intros Hall.
      inversion Hall; subst. congruence.
Qed.

Lemma comprehension_Raise {A B} (f : A -> result B) (xs : list A)
    (e : exn) :
  comprehension f xs = Raise e -> Exists (fun x => f x = Raise e) xs.
Proof.
  induction xs as [|x xs IH]; simpl; [discriminate|].
  destruct (f x) as [y|e'] eqn:Hx.
  - destruct (comprehension f xs) as [ys|e'']; [discriminate|].
    intros [= ->]. apply Exists_cons_tl. now apply IH.
  - intros [= ->]. now apply Exists_cons_hd.
Qed.

(** X6: [_format_routing] returns a list exactly when [int] accepts every
    token, one entry per token in order; when it fails, the exception is
    [ValueError] and a token that [int] rejects is there. *)
Theorem X6_format_routing_outcome (routing : string) :
  (forall zs, _format_routing routing = Ok zs
              <-> Forall2 (fun t z => int t = Ok z) (split routing) zs)
  /\ (forall e, _format_routing routing = Raise e ->
        e = ValueError
        /\ Exists (fun t => int t = Raise ValueError) (split routing)).
Proof.
  split.
  - intros zs. apply comprehension_Ok.
  - intros e Hrun. apply comprehension_Raise in Hrun.
    assert (He : e = ValueError).
    { apply Exists_exists in Hrun as (t & _ & Ht).
      exact (int_raises_ValueError t e Ht). }
    now subst e.
Qed.

Lemma X6_witness :
  ValueError = ValueError
  /\ Exists (fun t => int t = Raise ValueError) (split "1 2.5").
Proof.
  apply (proj2 (X6_format_routing_outcome "1 2.5") ValueError).
  reflexivity.
Defined.

End RoutingOutcomes.


(** ** Composing what methods leave as it was *)
Section FrameRules.
Context (R : state -> state -> Prop) `{!PreOrder R}.

Lemma keeps_ret {A} (x : A) : keeps R (ret x).
Proof. intros st. simpl. reflexivity. Qed.

Lemma keeps_raise {A} (e : exn) : keeps R (raise (A := A) e).
Proof. intros st. simpl. reflexivity. Qed.

Lemma keeps_lift {A} (r : result A) : keeps R (lift r).
Proof. intros st. simpl. reflexivity. Qed.

Lemma keeps_get : keeps R get.
Proof. intros st. simpl. reflexivity. Qed.

Lemma keeps_bind {A B} (m : Ctl A) (k : A -> Ctl B) :
  keeps R m -> (forall x, keeps R (k x)) -> keeps R (bind m k).
Proof.
  intros Hm Hk st. unfold bind. specialize (Hm st).
  destruct (m st) as [[x|e] st1]; simpl in *; [|exact Hm].
  etransitivity; [exact Hm|apply Hk].
Qed.

Lemma keeps_try_except {A} (m : Ctl A) (handles : exn -> bool)
    (handler : exn -> Ctl A) :
  keeps R m -> (forall e, keeps R (handler e)) ->
  keeps R (try_except m handles handler).
Proof.
  intros Hm Hh st. unfold try_except. specialize (Hm st).
  destruct (m st) as [[x|e] st1]; simpl in *; [exact Hm|].
  destruct (handles e); simpl; [|exact Hm].
  etransitivity; [exact Hm|apply Hh].
Qed.

Lemma keeps_upd_app (f : App -> App) :
  (forall st, R st {| app := f (app st); env := env st |}) ->
  keeps R (upd_app f).
Proof. intros Hf st. apply Hf. Qed.

Lemma keeps_upd_env (f : World -> World) :
  (forall st, R st {| app := app st; env := f (env st) |}) ->
  keeps R (upd_env f).
Proof. intros Hf st. apply Hf. Qed.

End FrameRules.

(** ** What the trial loop leaves as it was *)
Section TrialInvariants.
Context `{GainLaw}.

#[local] Instance unchanged_preorder {B} (attribute : App -> B) :
  PreOrder (unchanged attribute).
Proof.
  split.
  - intros st. reflexivity.
  - intros s1 s2 s3 H12 H23. unfold unchanged in *. congruence.
Qed.

#[local] Instance grown_preorder : PreOrder grown.
Proof.
  split.
  - intros st. exists []. now rewrite app_nil_r.
  - intros s1 s2 s3 [e1 H1] [e2 H2]. exists (e1 ++ e2).
    now rewrite H2, H1, app_assoc.
Qed.

Lemma grown_emit (e : event) : keeps grown (emit e).
Proof. intros st. exists [e]. reflexivity. Qed.

Lemma grown_upd_app (f : App -> App) : keeps grown (upd_app f).
Proof. intros st. exists []. simpl. now rewrite app_nil_r. Qed.

Lemma grown_persisted (f : World -> gmap string value) :
  keeps grown (upd_env (fun w => with_persisted (f w) w)).
Proof. intros st. exists []. simpl. now rewrite app_nil_r. Qed.

Lemma grown_playing (b : bool) : keeps grown (upd_env (with_playing b)).
Proof. intros st. exists []. simpl. now rewrite app_nil_r. Qed.

Lemma unchanged_upd_env {B} (attribute : App -> B) (f : World -> World) :
  keeps (unchanged attribute) (upd_env f).
Proof. intros st. reflexivity. Qed.

Create HintDb methods.
#[local] Hint Unfold _on_submit start_task _save_trial_data
  csvmodel_save_record _create_filename _update_trial_label widget iloc
  destroy _calc_offset _calc_level calmodel_calc_offset calmodel_calc_level
  _save_sessionpars get_number getvar setvar showerror showinfo
  present_audio _create_audio_object Audio_init _play the_a Audio_play
  Audio_stop Audio_plot_waveform stop_audio _show_audio_dialog
  _show_session_dialog : methods.

(** Taking a method apart along its binds, handlers and branches. *)
Ltac frame_step :=
  match goal with
  | |- keeps ?R _ =>
      first
        [ apply (keeps_ret R) | apply (keeps_raise R) | apply (keeps_lift R)
        | apply (keeps_get R)
        | apply grown_emit | apply grown_upd_app | apply grown_persisted
        | apply grown_playing | apply unchanged_upd_env
        | apply (keeps_upd_app R); intros ?; reflexivity
        | apply (keeps_bind R); [|intros ?]
        | apply (keeps_try_except R); [|intros ?]
        | match goal with
          | |- keeps _ (match ?x with _ => _ end) => destruct x
          | |- keeps _ (if ?b then _ else _) => destruct b
          end
        | progress unfold emit
        | progress autounfold with methods ]
  end.

Ltac frame := repeat frame_step.

Lemma on_submit_grows : keeps grown _on_submit.
Proof. frame. Qed.

Lemma start_task_grows : keeps grown start_task.
Proof. frame. Qed.

Lemma on_submit_keeps_response : keeps (unchanged response) _on_submit.
Proof. frame. Qed.

Local Arguments select : simpl never.
Local Arguments present_audio : simpl never.

Ltac run_submit :=
  unfold start_task, _on_submit, _save_trial_data, csvmodel_save_record,
    _create_filename, _update_trial_label, widget, iloc, destroy,
    showerror, showinfo, getvar, emit, upd_app, upd_env, lift, try_except,
    bind, ret, raise, get, modify; simpl.

Lemma select_None (sp : gmap string value) (ks : list string) :
  select sp ks = None <-> exists k, k ∈ ks /\ sp !! k = None.
Proof.
  unfold select. induction ks as [|k ks IH]; simpl.
  - split; [discriminate|]. intros (k & Hk & _). inversion Hk.
  - destruct (sp !! k) as [v|] eqn:Hk; simpl.
    + destruct (mapM _ ks) as [data|] eqn:Hrest; simpl; split.
      * discriminate.
      * intros (k' & Hin & Hk'). apply elem_of_cons in Hin as [->|Hin];
          [congruence|].
        assert (Hno : Some data = None) by (apply IH; eauto).
        discriminate Hno.
      * intros _. destruct (proj1 IH eq_refl) as (k' & Hin & Hk').
        exists k'. split; [apply elem_of_cons; now right|assumption].
      * reflexivity.
    + split; [|reflexivity]. intros _. exists k.
      split; [apply elem_of_cons; now left|assumption].
Qed.

Lemma select_Some (sp : gmap string value) (ks : list string)
    (data : list (string * value)) :
  select sp ks = Some data <->
  Forall2 (fun k kv => kv.1 = k /\ sp !! k = Some kv.2) ks data.
Proof.
  unfold select. rewrite mapM_Some. split; intros Hall;
    (eapply Forall2_impl; [exact Hall|]); intros k [k' v]; simpl.
  - destruct (sp !! k); simpl; [|discriminate]. now intros [= <- <-].
  - intros [-> ->]. reflexivity.
Qed.

(** X7: whatever else happens in it (a failed save, a failed
    presentation, an exception), [_on_submit] advances the trial counter
    by exactly one. *)
Theorem X7_submit_advances_counter (st : state) (n : nat) :
  trial_counter (app st) = Some n ->
  trial_counter (app (_on_submit st).2) = Some (n + 1)%nat.
Proof.
  intros Hn. unfold _on_submit. unfold bind at 1. simpl. rewrite Hn.
  unfold bind at 1. simpl.
  match goal with
  | |- trial_counter (app (?m ?s).2) = _ =>
      assert (Hm : keeps (unchanged trial_counter) m) by frame;
      exact (Hm s)
  end.
Qed.

(** X8: neither [start_task] nor [_on_submit] sets the response or the
    first-run flag: after a submission the response is still the last
    answer given, and the flag stays as it was. *)
Theorem X8_response_and_flag_are_not_reset (st : state) :
  response (app (_on_submit st).2) = response (app st)
  /\ response (app (start_task st).2) = response (app st)
  /\ first_run_flag (app (_on_submit st).2) = first_run_flag (app st)
  /\ first_run_flag (app (start_task st).2) = first_run_flag (app st).
Proof.
  repeat split.
  - assert (Hm : keeps (unchanged response) _on_submit) by frame.
    exact (Hm st).
  - assert (Hm : keeps (unchanged response) start_task) by frame.
    exact (Hm st).
  - assert (Hm : keeps (unchanged first_run_flag) _on_submit) by frame.
    exact (Hm st).
  - assert (Hm : keeps (unchanged first_run_flag) start_task) by frame.
    exact (Hm st).
Qed.

Lemma grown_after_bind {A B} (m : Ctl A) (k : A -> Ctl B) (st : state) :
  (forall x, keeps grown (k x)) -> grown (m st).2 (bind m k st).2.
Proof.
  intros Hk. unfold bind. destruct (m st) as [[x|e] s1]; simpl.
  - apply Hk.
  - reflexivity.
Qed.

(** X11: when a key of [save_list] is missing from the session
    parameters, no record is handed to the CSV model; the error is shown
    and the application is destroyed. *)
Theorem X11_missing_parameter_saves_nothing (st : state) (key : string) :
  destroyed (app st) = false ->
  key ∈ save_list ->
  sessionpars (app st) !! key = None ->
  _save_trial_data st
  = (Ok tt,
     {| app := with_destroyed (app st);
        env := with_trace (trace (env st)
                           ++ [ShowError "Undefined Variable"; Destroy])
                 (env st) |}).
Proof.
  intros Hlive Hkey Hnone. destruct st as [x w]. simpl in *.
  assert (Hsel : select (sessionpars x) save_list = None).
  { apply select_None. eauto. }
  run_submit. rewrite Hlive, Hsel. simpl. now rewrite <- app_assoc.
Qed.

Lemma save_trial_data_outcome (st : state) (data : list (string * value)) :
  destroyed (app st) = false ->
  Forall2 (fun k kv => kv.1 = k /\ sessionpars (app st) !! k = Some kv.2)
    save_list data ->
  (_save_trial_data st).1
  = match csv_failure (env st) with
    | Some e => if is_OSError e then Ok tt else Raise e
    | None => Ok tt
    end
  /\ app (_save_trial_data st).2 = app st
  /\ trace (env (_save_trial_data st).2)
     = trace (env st) ++ SaveRecord data
                         :: failure_events (csv_failure (env st)).
Proof.
  intros Hlive Hdata. apply select_Some in Hdata.
  destruct st as [x w]. simpl in *. run_submit. rewrite Hlive, Hdata.
  simpl. destruct (csv_failure w) as [e|]; simpl; [|auto].
  destruct e; simpl; rewrite <- ?app_assoc; auto.
Qed.

(** X12: when every key of [save_list] is there, the record handed to the
    CSV model lists these keys in order, each with the current value of
    its parameter; a failure of the save from the [OSError] family is
    reported and not passed on, any other exception is passed on; the
    application object is left as it was. *)
Theorem X12_save_trial_data_outcome (st : state)
    (data : list (string * value)) :
  destroyed (app st) = false ->
  Forall2 (fun k kv => kv.1 = k /\ sessionpars (app st) !! k = Some kv.2)
    save_list data ->
  (_save_trial_data st).1
  = match csv_failure (env st) with
    | Some e => if is_OSError e then Ok tt else Raise e
    | None => Ok tt
    end
  /\ app (_save_trial_data st).2 = app st
  /\ trace (env (_save_trial_data st).2)
     = trace (env st) ++ SaveRecord data
                         :: failure_events (csv_failure (env st)).
Proof. apply save_trial_data_outcome. Qed.

Lemma save_then_more {A} (k : unit -> Ctl A) (st : state)
    (data : list (string * value)) :
  destroyed (app st) = false ->
  Forall2 (fun k kv => kv.1 = k /\ sessionpars (app st) !! k = Some kv.2)
    save_list data ->
  (forall x, keeps grown (k x)) ->
  exists rest,
    trace (env (bind _save_trial_data k st).2)
    = trace (env st) ++ SaveRecord data :: rest.
Proof.
  intros Hlive Hdata Hk.
  destruct (grown_after_bind _save_trial_data k st Hk) as [rest Hrest].
  destruct (save_trial_data_outcome st data Hlive Hdata)
    as (_ & _ & Htrace).
  rewrite Hrest, Htrace. eexists. rewrite <- app_assoc. reflexivity.
Qed.

(** X9: a response other than 0 or 1 is reported, and the trial is saved
    all the same: the record follows the message in the trace. *)
Theorem X9_invalid_response_is_saved_all_the_same (st : state) (n : nat)
    (data : list (string * value)) :
  destroyed (app st) = false ->
  trial_counter (app st) = Some n ->
  select (sessionpars (app st)) save_list = Some data ->
  exists rest,
    trace (env (_on_submit st).2)
    = trace (env st) ++ response_events (response (app st))
      ++ SaveRecord data :: rest.
Proof.
  intros Hlive Hn Hsel. apply select_Some in Hsel.
  unfold _on_submit. unfold bind at 1. simpl. rewrite Hn.
  unfold bind at 1. simpl. unfold response_events.
  destruct (response (app st) =? 0); [|destruct (response (app st) =? 1)];
    unfold bind at 1; unfold ret, showerror, emit, upd_env, modify;
    cbv beta iota;
    match goal with
    | |- context [bind _save_trial_data ?k ?s] =>
        destruct (save_then_more k s data) as [rest Hrest];
        [exact Hlive|exact Hsel|intros ?; frame|]
    end; rewrite Hrest; simpl; eexists; rewrite <- ?app_assoc;
    reflexivity.
Qed.

(** X10: after the last row of the matrix, [_on_submit] saves the
    trial, tells the listener that the task is complete and destroys the
    application; nothing is presented. *)
Theorem X10_last_trial_completes_the_task (st : state) (n : nat)
    (m : list (string * float)) (data : list (string * value)) :
  destroyed (app st) = false ->
  trial_counter (app st) = Some n ->
  matrix (app st) = Some m ->
  (length m <= n + 1)%nat ->
  select (sessionpars (app st)) save_list = Some data ->
  (forall e, csv_failure (env st) = Some e -> is_OSError e = true) ->
  _on_submit st
  = (Ok tt,
     {| app := with_destroyed (with_trial_counter (n + 1) (app st));
        env := with_trace
                 (trace (env st)
                  ++ response_events (response (app st))
                  ++ SaveRecord data
                     :: failure_events (csv_failure (env st))
                  ++ [ShowInfo "Task Complete"; Destroy])
                 (env st) |}).
Proof.
  intros Hlive Hn Hm Hlen Hsel Hcsv. destruct st as [x w].
  cbn [app env] in *.
  assert (Hge : (n + 1 <? length m)%nat = false)
    by (apply Nat.ltb_ge; exact Hlen).
  assert (Hos : match csv_failure w with
                | Some e => is_OSError e = true
                | None => True
                end).
  { destruct (csv_failure w); [now apply Hcsv|exact I]. }
  run_submit. rewrite Hn. simpl. unfold response_events.
  destruct (response x =? 0); [|destruct (response x =? 1)]; simpl.
  all: rewrite Hlive; simpl; rewrite Hsel; simpl.
  all: destruct (csv_failure w) as [[]|]; simpl in Hos;
         try discriminate Hos; simpl.
  all: rewrite Hm; simpl; rewrite Hge; simpl.
  all: rewrite <- ?app_assoc; reflexivity.
Qed.

(** X13: when the matrix file is not found, [start_task] reports it and
    presents nothing; by then the trial counter is 0, the response keys
    are bound and the Start Task entry is disabled, and it stays so. *)
Theorem X13_start_task_without_matrix (st : state) :
  destroyed (app st) = false ->
  is_Some (sessionpars (app st) !! "subject"%string) ->
  is_Some (sessionpars (app st) !! "condition"%string) ->
  stimulus_matrix (env st) = None ->
  (start_task st).1 = Ok tt
  /\ trace (env (start_task st).2)
     = trace (env st)
       ++ [MenuDisabled "Start Task"; BindKey "1"; BindKey "2";
           ShowError "File Not Found"]
  /\ trial_counter (app (start_task st).2) = Some 0%nat
  /\ matrix (app (start_task st).2) = matrix (app st)
  /\ a (app (start_task st).2) = a (app st).
Proof.
  intros Hlive [sj Hsj] [cd Hcd] Hm. destruct st as [x w].
  cbn [app env] in *. run_submit.
  destruct (first_run_flag x); simpl;
    repeat (first [rewrite Hsj|rewrite Hcd|rewrite Hlive|rewrite Hm];
            simpl);
    rewrite <- ?app_assoc; auto.
Qed.

(** X14: with a matrix that has no rows, [start_task] labels the trial
    "1 of 0" and then raises [IndexError] on the first row; nothing is
    presented. *)
Theorem X14_start_task_with_empty_matrix (st : state) :
  destroyed (app st) = false ->
  is_Some (sessionpars (app st) !! "subject"%string) ->
  is_Some (sessionpars (app st) !! "condition"%string) ->
  stimulus_matrix (env st) = Some [] ->
  (start_task st).1 = Raise IndexError
  /\ trace (env (start_task st).2)
     = trace (env st)
       ++ [MenuDisabled "Start Task"; BindKey "1"; BindKey "2";
           TrialLabel 1 0]
  /\ matrix (app (start_task st).2) = Some [].
Proof.
  intros Hlive [sj Hsj] [cd Hcd] Hm. destruct st as [x w].
  cbn [app env] in *. run_submit.
  destruct (first_run_flag x); simpl;
    repeat (first [rewrite Hsj|rewrite Hcd|rewrite Hlive|rewrite Hm];
            simpl);
    rewrite <- ?app_assoc; auto.
Qed.

End TrialInvariants.

(** ** How a presentation request ends *)
Section Requests.
Context `{GainLaw}.

Local Arguments Audio_init : simpl never.
Local Arguments Audio_play : simpl never.
Local Arguments _play : simpl never.

(** X15: when the audio object cannot be built because the input has the
    wrong type or lacks a sampling rate, [present_audio] shows one message
    and returns; [_play] is not reached and [self.a] is left alone. *)
Theorem X15_input_errors_end_the_request (st st' : state)
    (audio : audio_source) (level : float) (kwargs : option Z) (e : exn) :
  Audio_init audio kwargs st = (Raise e, st') ->
  e = InvalidAudioType \/ e = MissingSamplingRate ->
  present_audio audio level kwargs st
  = (Ok tt,
     {| app := app st';
        env := with_trace (trace (env st') ++ [ShowError (title_of e)])
                 (env st') |}).
Proof.
  intros Hinit He.
  unfold present_audio, _create_audio_object, showerror, emit, upd_env,
    try_except, bind, ret, raise, modify.
  rewrite Hinit. destruct He as [-> | ->]; reflexivity.
Qed.

(** X16: when the audio object is built, it replaces [self.a] and is the
    one that [_play] plays. *)
Theorem X16_loaded_audio_is_the_one_played (st st' : state)
    (audio : audio_source) (level : float) (kwargs : option Z) (au : Audio) :
  Audio_init audio kwargs st = (Ok au, st') ->
  present_audio audio level kwargs st
  = _play level {| app := with_a au (app st'); env := env st' |}.
Proof.
  intros Hinit.
  unfold present_audio, _create_audio_object, upd_app, try_except, bind,
    ret, modify.
  now rewrite Hinit.
Qed.

(** X17: when the file is missing and no audio object exists yet, the
    request ends in an [AttributeError] that nothing catches, after the
    message and the session dialog. *)
Theorem X17_missing_file_without_audio_object (st : state) (p : string)
    (level : float) (kwargs : option Z) :
  a (app st) = None ->
  audio_files (env st) !! p = None ->
  present_audio (FromPath p) level kwargs st
  = (Raise AttributeError,
     {| app := app st;
        env := with_trace (trace (env st)
                           ++ [ShowError "File Not Found"; SessionDialog])
                 (env st) |}).
Proof.
  intros Ha Hp. rewrite (present_audio_missing_file st level p kwargs Hp).
  unfold _play, the_a, try_except, bind, get, raise. simpl.
  now rewrite Ha.
Qed.

(** X18: [InvalidAudioDevice], [InvalidRouting] and [Clipping] never leave
    [_play]. *)
Theorem X18_play_contains_the_audio_exceptions (st : state) (level : float) :
  (_play level st).1 <> Raise InvalidAudioDevice
  /\ (_play level st).1 <> Raise InvalidRouting
  /\ (_play level st).1 <> Raise Clipping.
Proof.
  assert (Hgoal : forall r : result unit,
            (r = Ok tt \/ exists e, r = Raise e
                                   /\ e <> InvalidAudioDevice
                                   /\ e <> InvalidRouting
                                   /\ e <> Clipping) ->
            r <> Raise InvalidAudioDevice /\ r <> Raise InvalidRouting
            /\ r <> Raise Clipping).
  { intros r [-> | (e & -> & H1 & H2 & H3)];
      (split; [|split]); congruence. }
  apply Hgoal. unfold _play, try_except.
  destruct (bind the_a _ st) as [[[]|e] s1]; simpl; [now left|].
  destruct e; simpl;
    try (right; eexists; (split; [reflexivity|]); (split; [|split]);
         intros Hx; discriminate Hx).
  - now left.
  - now left.
  - destruct s1 as [x1 w1].
    unfold showerror, Audio_plot_waveform, the_a, emit, upd_env, modify,
      get, raise, ret, bind. simpl.
    destruct (a x1); simpl; [now left|].
    right. eexists. (split; [reflexivity|]). (split; [|split]);
      intros Hx; discriminate Hx.
Qed.

(** X19: when playing fails because of the device or the routing,
    [_play] shows the message for it, opens the audio settings and
    returns normally. *)
Theorem X19_device_and_routing_failures_open_the_settings (st st' : state)
    (au : Audio) (level : float) (device : value) (routing : string)
    (channels : list Z) (e : exn) :
  a (app st) = Some au ->
  destroyed (app st) = false ->
  sessionpars (app st) !! "audio_device"%string = Some device ->
  sessionpars (app st) !! "channel_routing"%string = Some (VStr routing) ->
  _format_routing routing = Ok channels ->
  Audio_play au level device channels st = (Raise e, st') ->
  e = InvalidAudioDevice \/ e = InvalidRouting ->
  _play level st
  = (Ok tt,
     {| app := app st';
        env := with_trace (trace (env st')
                           ++ [ShowError (title_of e); AudioDialog])
                 (env st') |}).
Proof.
  intros Ha Hlive Hdev Hroute Hparse Hplay He.
  unfold _play, the_a, getvar, lift, try_except, bind, ret, raise, get.
  destruct st as [x w]. cbn [app env] in *. simpl.
  repeat (first [rewrite Ha|rewrite Hdev|rewrite Hlive|rewrite Hroute
                |rewrite Hparse|rewrite Hplay]; simpl).
  destruct He as [-> | ->]; simpl;
    unfold showerror, _show_audio_dialog, emit, upd_env, modify, bind;
    simpl; now rewrite <- app_assoc.
Qed.

End Requests.


(** ** The further properties on the session of the examples *)
Section SessionExtras.

Lemma X7_witness :
  trial_counter (app (_on_submit (H := step_gain) answered_yes).2)
  = Some (0 + 1)%nat.
Proof.
  apply (X7_submit_advances_counter (H := step_gain) answered_yes 0).
  reflexivity.
Defined.

Lemma X9_witness :
  exists rest,
    trace (env (_on_submit (H := step_gain) after_first_trial).2)
    = trace (env after_first_trial)
      ++ response_events (response (app after_first_trial))
      ++ SaveRecord
           [("subject", VStr "s1"); ("condition", VStr "quiet");
            ("randomize", VInt 0); ("repetitions", VInt 1);
            ("slm_reading", VFloat 68); ("cal_level_dB", VFloat (-17));
            ("slm_offset", VFloat (-85)); ("desired_level_dB", VFloat 65);
            ("adjusted_level_dB", VFloat (-20))]%string
         :: rest.
Proof.
  apply (X9_invalid_response_is_saved_all_the_same (H := step_gain)
           after_first_trial 0);
    vm_compute; reflexivity.
Defined.

Lemma X10_witness :
  _on_submit (H := step_gain) after_second_trial
  = (Ok tt,
     {| app := with_destroyed
                 (with_trial_counter (1 + 1) (app after_second_trial));
        env := with_trace
                 (trace (env after_second_trial)
                  ++ response_events (response (app after_second_trial))
                  ++ SaveRecord
                       [("subject", VStr "s1"); ("condition", VStr "quiet");
                        ("randomize", VInt 0); ("repetitions", VInt 1);
                        ("slm_reading", VFloat 68);
                        ("cal_level_dB", VFloat (-17));
                        ("slm_offset", VFloat (-85));
                        ("desired_level_dB", VFloat 65);
                        ("adjusted_level_dB", VFloat (-25))]%string
                     :: failure_events (csv_failure (env after_second_trial))
                  ++ [ShowInfo "Task Complete"; Destroy])
                 (env after_second_trial) |}).
Proof.
  apply (X10_last_trial_completes_the_task (H := step_gain)
           after_second_trial 1
           [("tone.wav"%string, 65%float); ("missing.wav"%string, 60%float)]);
    try (vm_compute; reflexivity).
  intros e He. vm_compute in He. discriminate He.
Defined.

Lemma X11_witness :
  _save_trial_data (without "subject")
  = (Ok tt,
     {| app := with_destroyed (app (without "subject"));
        env := with_trace (trace (env (without "subject"))
                           ++ [ShowError "Undefined Variable"; Destroy])
                 (env (without "subject")) |}).
Proof.
  apply (X11_missing_parameter_saves_nothing (without "subject")
           "subject").
  - reflexivity.
  - apply elem_of_cons. now left.
  - vm_compute. reflexivity.
Defined.

Lemma X12_witness :
  (_save_trial_data (refused PermissionError)).1
  = match csv_failure (env (refused PermissionError)) with
    | Some e => if is_OSError e then Ok tt else Raise e
    | None => Ok tt
    end
  /\ app (_save_trial_data (refused PermissionError)).2
     = app (refused PermissionError)
  /\ trace (env (_save_trial_data (refused PermissionError)).2)
     = trace (env (refused PermissionError))
       ++ SaveRecord
            [("subject", VStr "s1"); ("condition", VStr "quiet");
             ("randomize", VInt 0); ("repetitions", VInt 1);
             ("slm_reading", VFloat 68); ("cal_level_dB", VFloat (-17));
             ("slm_offset", VFloat (-85)); ("desired_level_dB", VFloat 65);
             ("adjusted_level_dB", VFloat (-20))]%string
          :: failure_events (csv_failure (env (refused PermissionError))).
Proof.
  apply (X12_save_trial_data_outcome (refused PermissionError)).
  - reflexivity.
  - repeat constructor; vm_compute; reflexivity.
Defined.

Lemma X13_witness :
  (start_task (H := step_gain)
     {| app := fresh; env := studio_with_matrix None |}).1 = Ok tt
  /\ trace (env (start_task (H := step_gain)
                   {| app := fresh; env := studio_with_matrix None |}).2)
     = trace (studio_with_matrix None)
       ++ [MenuDisabled "Start Task"; BindKey "1"; BindKey "2";
           ShowError "File Not Found"]
  /\ trial_counter
       (app (start_task (H := step_gain)
               {| app := fresh; env := studio_with_matrix None |}).2)
     = Some 0%nat
  /\ matrix (app (start_task (H := step_gain)
                    {| app := fresh; env := studio_with_matrix None |}).2)
     = matrix fresh
  /\ a (app (start_task (H := step_gain)
               {| app := fresh; env := studio_with_matrix None |}).2)
     = a fresh.
Proof.
  apply (X13_start_task_without_matrix (H := step_gain)
           {| app := fresh; env := studio_with_matrix None |});
    try reflexivity; vm_compute; eauto.
Defined.

Lemma X14_witness :
  (start_task (H := step_gain)
     {| app := fresh; env := studio_with_matrix (Some []) |}).1
  = Raise IndexError
  /\ trace (env (start_task (H := step_gain)
                   {| app := fresh;
                      env := studio_with_matrix (Some []) |}).2)
     = trace (studio_with_matrix (Some []))
       ++ [MenuDisabled "Start Task"; BindKey "1"; BindKey "2";
           TrialLabel 1 0]
  /\ matrix (app (start_task (H := step_gain)
                    {| app := fresh;
                       env := studio_with_matrix (Some []) |}).2)
     = Some [].
Proof.
  apply (X14_start_task_with_empty_matrix (H := step_gain)
           {| app := fresh; env := studio_with_matrix (Some []) |});
    try reflexivity; vm_compute; eauto.
Defined.

Lemma X15_witness :
  present_audio (H := step_gain) FromOther 0 None at_launch
  = (Ok tt,
     {| app := app at_launch;
        env := with_trace (trace (env at_launch)
                           ++ [ShowError (title_of InvalidAudioType)])
                 (env at_launch) |}).
Proof.
  apply (X15_input_errors_end_the_request (H := step_gain) at_launch
           at_launch FromOther 0 None InvalidAudioType).
  - reflexivity.
  - now left.
Defined.

Lemma X16_witness :
  present_audio (H := step_gain) (FromPath "tone.wav") 0 None at_launch
  = _play (H := step_gain) 0
      {| app := with_a loaded_tone (app at_launch); env := env at_launch |}.
Proof.
  apply (X16_loaded_audio_is_the_one_played (H := step_gain) at_launch
           at_launch (FromPath "tone.wav") 0 None loaded_tone).
  vm_compute. reflexivity.
Defined.

Lemma X17_witness :
  present_audio (H := step_gain) (FromPath "missing.wav") 0 None at_launch
  = (Raise AttributeError,
     {| app := app at_launch;
        env := with_trace (trace (env at_launch)
                           ++ [ShowError "File Not Found"; SessionDialog])
                 (env at_launch) |}).
Proof.
  apply (X17_missing_file_without_audio_object (H := step_gain) at_launch
           "missing.wav" 0 None).
  - reflexivity.
  - vm_compute. reflexivity.
Defined.

Lemma X19_witness :
  _play (H := step_gain) 0 (with_routing "1 2")
  = (Ok tt,
     {| app := app (Audio_play (H := step_gain) loaded_tone 0 (VInt 1)
                      [1; 2] (with_routing "1 2")).2;
        env := with_trace
                 (trace (env (Audio_play (H := step_gain) loaded_tone 0
                                (VInt 1) [1; 2] (with_routing "1 2")).2)
                  ++ [ShowError (title_of InvalidRouting); AudioDialog])
                 (env (Audio_play (H := step_gain) loaded_tone 0 (VInt 1)
                         [1; 2] (with_routing "1 2")).2) |}).
Proof.
  apply (X19_device_and_routing_failures_open_the_settings
           (H := step_gain) (with_routing "1 2") _ loaded_tone 0 (VInt 1)
           "1 2" [1; 2] InvalidRouting);
    try (vm_compute; reflexivity).
  now right.
Defined.

End SessionExtras.
